(** * Starstream core: intent control plane and scheduler baselines

    A shallow embedding of [examples/intent_control_plane_mvp.py] and
    [examples/scheduler_baselines.py], and the properties of the two that the
    specification states.

    Python's [float] is IEEE 754 binary64, which is what Rocq's primitive
    [float] is: arithmetic and comparisons below are the machine's, rounding
    included.  Python's [int] is [Z].  A [dict] whose iteration order the code
    depends on is an association list in insertion order; the others are
    [gmap]s.  Exceptions are values of [exn], carried by [result]. *)

From Stdlib Require Import ZArith Floats String Ascii List Bool Lia.
From stdpp Require Import base option list gmap strings pretty sorting.

#[local] Set Warnings "-inexact-float".
#[local] Open Scope string_scope.

(** ** The Python runtime the two files rely on *)

Module Py.

(** The exceptions the modelled code can raise.  [OtherError] stands for
    whatever an external collaborator raises, with its detail. *)
Inductive exn : Type :=
| ValueError (msg : string)
| KeyError (key : string)
| TypeError (msg : string)
| ZeroDivisionError
| OverflowError
| IndexError
| OtherError (detail : string).

Inductive result (A : Type) : Type :=
| Ok (a : A)
| Raise (e : exn).
Arguments Ok {A} a.
Arguments Raise {A} e.

#[export] Instance result_ret : MRet result := @Ok.
#[export] Instance result_bind : MBind result :=
  fun A B f m => match m with Ok a => f a | Raise e => Raise e end.
#[export] Instance result_fmap : FMap result :=
  fun A B f m => match m with Ok a => Ok (f a) | Raise e => Raise e end.

(** [d[key]] on a [dict] with [str] keys. *)
Definition getitem {V : Type} (d : gmap string V) (key : string) : result V :=
  match d !! key with
  | Some v => Ok v
  | None => Raise (KeyError key)
  end.

(** [d.get(key, dflt)]. *)
Definition get {V : Type} (d : gmap string V) (key : string) (dflt : V) : V :=
  default dflt (d !! key).

(** *** Floats *)

(** [a > b], [a < b], [a <= b], [a == b] on floats: false on a NaN. *)
Definition gt (a b : float) : bool := PrimFloat.ltb b a.
Definition lt (a b : float) : bool := PrimFloat.ltb a b.
Definition le (a b : float) : bool := PrimFloat.leb a b.
Definition feq (a b : float) : bool := PrimFloat.eqb a b.

(** [max(a, b)]: the first argument stays unless the second is greater. *)
Definition max2 (a b : float) : float := if gt b a then b else a.

(** [a / b] on floats raises on a zero divisor (of either sign). *)
Definition truediv (a b : float) : result float :=
  if feq b 0%float then Raise ZeroDivisionError else Ok (a / b)%float.

(** [float(k)] for an [int]: the nearest float, ties to even;
    [OverflowError] when that is out of range. *)
Definition int_to_float (k : Z) : result float :=
  match binary_normalize prec emax k 0 false with
  | S754_infinity _ => Raise OverflowError
  | sf => Ok (SF2Prim sf)
  end.

(** [a / k] for a float [a] and an int [k]: the int is converted first, then
    the division checks for zero.  [float(k)] is zero only for [k = 0]. *)
Definition truediv_int (a : float) (k : Z) : result float :=
  b ← int_to_float k;
  if (k =? 0)%Z then Raise ZeroDivisionError else Ok (a / b)%float.

(** A number as [**] can return it: a float, or a complex one (whose value
    no caller here looks at: it is only ever compared, which raises). *)
Inductive num : Type :=
| Real (x : float)
| Complex.

Definition num_mul (a b : num) : num :=
  match a, b with
  | Real x, Real y => Real (x * y)%float
  | _, _ => Complex
  end.

Section FloatPow.

(** The C library's [pow], which CPython calls once the special cases are
    out of the way. *)
Variable libm_pow : float -> float -> float.

(** [iv ** iw] for an exponent that is finite, positive and not an integer
    (the estimator's 0.5 and 0.6), after CPython's [float_pow]: a NaN base
    is returned, an infinite base gives [+inf], a zero base gives [0.0], a
    negative base gives a complex number, [1.0] gives [1.0]; what is left
    goes to the C library, and an infinite answer is an [OverflowError]. *)
Definition float_pow (iv iw : float) : result num :=
  if is_nan iv then Ok (Real iv)
  else if is_infinity iv then Ok (Real (abs iv))
  else if feq iv 0%float then Ok (Real 0%float)
  else if lt iv 0%float then Ok Complex
  else if feq iv 1%float then Ok (Real 1%float)
  else
    let ix := libm_pow iv iw in
    if is_infinity ix then Raise OverflowError else Ok (Real ix).

End FloatPow.

(** [max(items, key=key)]: the first item whose key no later key exceeds.
    [best] is the item kept so far. *)
Fixpoint max_loop {A : Type} (key : A -> float) (best : A) (items : list A) : A :=
  match items with
  | [] => best
  | item :: rest =>
      max_loop key (if gt (key item) (key best) then item else best) rest
  end.

Definition max_by {A : Type} (key : A -> float) (items : list A) : result A :=
  match items with
  | [] => Raise (ValueError "max() arg is an empty sequence")
  | first :: rest => Ok (max_loop key first rest)
  end.

(** *** Formatting: [format(x, '.3f')] *)

(** [num / den] rounded to the nearest integer, ties to even. *)
Definition round_half_even (num : Z) (den : Z) : Z :=
  let q := (num / den)%Z in
  let r := (num mod den)%Z in
  match (2 * r ?= den)%Z with
  | Lt => q
  | Gt => (q + 1)%Z
  | Eq => if Z.even q then q else (q + 1)%Z
  end.

Definition digit (d : Z) : string := pretty (Z.to_N d).

(** The thousandths [q >= 0] written with three decimals. *)
Definition thousandths (q : Z) : string :=
  pretty (Z.to_N (q / 1000)) ++ "." ++
  digit (q / 100 mod 10) ++ digit (q / 10 mod 10) ++ digit (q mod 10).

Definition sign_str (s : bool) : string := if s then "-" else "".

(** The float is [m * 2^e] exactly, so the rounding to three decimals is
    done on integers. *)
Definition format_3f (x : float) : string :=
  match Prim2SF x with
  | S754_nan => "nan"
  | S754_infinity s => sign_str s ++ "inf"
  | S754_zero s => sign_str s ++ "0.000"
  | S754_finite s m e =>
      let q :=
        match e with
        | Zneg p => round_half_even (Zpos m * 1000) (Z.pow_pos 2 p)
        | _ => (Zpos m * 1000 * 2 ^ e)%Z
        end in
      sign_str s ++ thousandths q
  end.

End Py.

(** ** scheduler_baselines.py *)

Module Scheduler.
Import Py.

#[local] Open Scope float_scope.

(** Service level objective of a request. *)
Record SLO : Type := {
  latency_p95_ms : float;
  cost_per_1k : float;
  energy_j_max : float;
}.

(** An estimate or an observed outcome with its three entries:
    [{"lat_ms": .., "cost": .., "energy": ..}]. *)
Record Estimate : Type := {
  lat_ms : float;
  cost : float;
  energy : float;
}.

(** [score(est, slo)]: higher is better.  Each of the four divisions can
    raise. *)
Definition score (est : Estimate) (slo : SLO) : result float :=
  lat_pen ← truediv est.(lat_ms) (max2 slo.(latency_p95_ms) 1e-6);
  cost_pen ← truediv est.(cost) (max2 slo.(cost_per_1k) 1e-9);
  energy_pen ← truediv est.(energy) (max2 slo.(energy_j_max) 1e-9);
  truediv 1.0 (0.55 * lat_pen + 0.30 * cost_pen + 0.15 * energy_pen).

(** The candidate targets, in the order both schedulers walk them. *)
Definition cands : list string := ["photonic"; "gpu"; "cpu"].

(** The safety test both schedulers apply to an estimate. *)
Definition _safe (est : Estimate) (slo : SLO) : bool :=
  le est.(lat_ms) (slo.(latency_p95_ms) * 1.05) &&
  le est.(energy) (slo.(energy_j_max) * 1.1).

(** What [Models.estimate] hands back: the three entries, or entries that
    became complex because a power of a negative number went into the load. *)
Inductive Estimated : Type :=
| RealEst (est : Estimate)
| ComplexEst.

(** Comparing an entry of the estimate with a float: a complex entry makes
    [<=] raise. *)
Definition comparable (e : Estimated) : result Estimate :=
  match e with
  | RealEst est => Ok est
  | ComplexEst =>
      Raise (TypeError "'<=' not supported between instances of 'complex' and 'float'")
  end.

Module Models.
Section Estimator.

Variable libm_pow : float -> float -> float.

(** [self.mean], as [__init__] sets it. *)
Definition mean : gmap string Estimate :=
  <["photonic" := {| lat_ms := 0.4; cost := 0.0002; energy := 1.0 |}]>
  (<["gpu" := {| lat_ms := 1.2; cost := 0.0005; energy := 5.0 |}]>
  (<["cpu" := {| lat_ms := 4.0; cost := 0.0001; energy := 2.0 |}]> ∅)).

(** [estimate(target, context)].  The context holds numbers, kept as the
    floats [float()] makes of them. *)
Definition estimate (target : string) (context : gmap string float)
  : result Estimated :=
  base ← getitem mean target;
  let batch := get context "batch_size" 1.0 in
  let tokens := get context "tokens" 512.0 in
  let concurrency := get context "concurrency" 1.0 in
  batch_pow ← float_pow libm_pow batch 0.5;
  concurrency_pow ← float_pow libm_pow concurrency 0.6;
  let load := num_mul (num_mul (Real (tokens / 512.0)) batch_pow) concurrency_pow in
  match load with
  | Real load =>
      Ok (RealEst {| lat_ms := base.(lat_ms) * (1.0 + 0.25 * load);
                     energy := base.(energy) * (1.0 + 0.35 * load);
                     cost := base.(cost) * (1.0 + 0.20 * load) |})
  | Complex => Ok ComplexEst
  end.

End Estimator.
End Models.

(** The metadata [ConstrainedBestScore.decide] returns with its choice. *)
Record BestInfo : Type := {
  best_target : string;
  best_expected : Estimate;
  best_score : float;
}.

Module ConstrainedBestScore.
Section Decide.

Variable libm_pow : float -> float -> float.

(** The loop over [cands] that collects the safe candidates; [safe] is the
    list built so far. *)
Fixpoint collect_safe (slo : SLO) (context : gmap string float)
  (ts : list string) (safe : list (string * Estimate))
  : result (list (string * Estimate)) :=
  match ts with
  | [] => Ok safe
  | t :: rest =>
      est ← Models.estimate libm_pow t context ≫= comparable;
      collect_safe slo context rest
        (if _safe est slo then safe ++ [(t, est)] else safe)
  end.

(** [[(t, self.models.estimate(t, context)) for t in cands]]. *)
Definition all_cands (context : gmap string float)
  : result (list (string * Estimated)) :=
  mapM (fun t => est ← Models.estimate libm_pow t context; Ok (t, est)) cands.

(** [[(t, est, score(est, slo)) for t, est in safe]]; an estimate that
    reaches [score] is real, the loop above compared every one. *)
Definition scored (slo : SLO) (safe : list (string * Estimate))
  : result (list (string * Estimate * float)) :=
  mapM (fun '(t, est) => s ← score est slo; Ok (t, est, s)) safe.

Definition decide (slo : SLO) (context : gmap string float)
  : result (string * BestInfo) :=
  safe ← collect_safe slo context cands [];
  safe ← (match safe with
          | [] => all_cands context ≫=
                  mapM (fun '(t, est) => est ← comparable est; Ok (t, est))
          | _ => Ok safe
          end);
  triples ← scored slo safe;
  '(best_t, best_est, best_s) ← max_by snd triples;
  Ok (best_t, {| best_target := best_t; best_expected := best_est;
                 best_score := best_s |}).

End Decide.
End ConstrainedBestScore.

(** The metadata [ConstrainedEpsilonGreedy.decide] returns with its choice. *)
Record GreedyInfo : Type := {
  target : string;
  expected : Estimate;
  mode : string;
  canary_fraction : float;
}.

Module ConstrainedEpsilonGreedy.

(** The scheduler object: its parameters and the two per-target dicts. *)
Record t : Type := {
  eps : float;
  canary : float;
  mu : gmap string float;
  n : gmap string Z;
}.

(** [__init__(eps, canary)]: [mu] is zero on the three targets, [n] is one on
    the keys of [mu]. *)
Definition init (eps canary : float) : t :=
  let mu0 : gmap string float := list_to_map ((fun t => (t, 0.0)) <$> cands) in
  {| eps := eps; canary := canary; mu := mu0; n := (fun _ => 1%Z) <$> mu0 |}.

(** [observe(target, actual)]: the reward, then the two updates, each of
    which reads its dict first and so raises on a missing key.  The object is
    returned as the call leaves it. *)
Definition reward (actual : gmap string float) : result float :=
  inv ← truediv 1.0 (max2 (get actual "cost" 1e-4) 1e-4);
  Ok (inv - 0.5 * max2 0.0 (get actual "lat_ms" 0.0)).

Definition observe (self : t) (target : string) (actual : gmap string float)
  : result unit * t :=
  match reward actual with
  | Raise e => (Raise e, self)
  | Ok r =>
      match getitem self.(mu) target with
      | Raise e => (Raise e, self)
      | Ok m =>
          let self1 := {| eps := self.(eps); canary := self.(canary);
                          mu := <[target := m + r]> self.(mu);
                          n := self.(n) |} in
          match getitem self1.(n) target with
          | Raise e => (Raise e, self1)
          | Ok k =>
              (Ok tt, {| eps := self1.(eps); canary := self1.(canary);
                         mu := self1.(mu);
                         n := <[target := (k + 1)%Z]> self1.(n) |})
          end
      end
  end.

Section Decide.

Variable libm_pow : float -> float -> float.

(** [ests = {t: self.models.estimate(t, context) for t in cands}], in
    insertion order. *)
Definition estimates (context : gmap string float)
  : result (list (string * Estimated)) :=
  mapM (fun t => est ← Models.estimate libm_pow t context; Ok (t, est)) cands.

(** [[t for t in cands if self._safe(ests[t], slo)]]: each target is kept
    with [ests[t]], which the rest of [decide] looks up again. *)
Fixpoint safe_of (slo : SLO) (ests : list (string * Estimated))
  : result (list (string * Estimate)) :=
  match ests with
  | [] => Ok []
  | (t, est) :: rest =>
      est ← comparable est;
      safe ← safe_of slo rest;
      Ok (if _safe est slo then (t, est) :: safe else safe)
  end.

(** [random.choice(seq)] with the index the generator draws: [k] is reduced
    below [len(seq)]; an empty sequence raises. *)
Definition choice {A : Type} (k : nat) (seq : list A) : result A :=
  match seq !! (k mod length seq)%nat with
  | Some x => Ok x
  | None => Raise IndexError
  end.

(** [vals = {t: score(ests[t], slo) + self.mu[t] / self.n[t] for t in safe}]. *)
Definition vals (self : t) (slo : SLO) (safe : list (string * Estimate))
  : result (list (string * Estimate * float)) :=
  mapM (fun '(t, est) =>
          s ← score est slo;
          m ← getitem self.(mu) t;
          k ← getitem self.(n) t;
          avg ← truediv_int m k;
          Ok (t, est, s + avg)) safe.

(** [decide(slo, context)].  [u] is what [random.random()] returns and [k]
    the index [random.choice] draws. *)
Definition decide (self : t) (slo : SLO) (context : gmap string float)
  (u : float) (k : nat) : result (string * GreedyInfo) :=
  ests ← estimates context;
  safe ← safe_of slo ests;
  safe ← (match safe with
          | [] => mapM (fun '(t, est) => est ← comparable est; Ok (t, est)) ests
          | _ => Ok safe
          end);
  '(choice, est, mode) ←
    (if lt u self.(eps) then
       '(t, est) ← choice k safe; Ok (t, est, "explore")
     else
       vs ← vals self slo safe;
       '(t, est, _) ← max_by snd vs; Ok (t, est, "exploit"));
  Ok (choice, {| target := choice; expected := est; mode := mode;
                 canary_fraction := self.(canary) |}).

End Decide.
End ConstrainedEpsilonGreedy.

End Scheduler.

(** ** intent_control_plane_mvp.py *)

Module ControlPlane.
Import Py.

(** A value of a [Dict[str, Any]]: what the intent factory stores. *)
Inductive pyval : Type :=
| VNone
| VStr (s : string)
| VInt (k : Z)
| VFloat (x : float).

(** A dict keyed by a pair of node names, in insertion order. *)
Definition LinkMap : Type := list ((string * string) * float).

Record Link : Type := {
  src : string;
  dst : string;
  capacity_gbps : float;
  base_latency_ms : float;
  tags : gmap string string;
}.

Record Topology : Type := {
  nodes : list string;
  links : list Link;
}.

(** The loop of [Topology.neighbors]: [out] is the list built so far.  A link
    from the node to itself adds the node twice. *)
Fixpoint neighbors_loop (links : list Link) (node : string) (out : list string)
  : list string :=
  match links with
  | [] => out
  | l :: rest =>
      let out := if String.eqb l.(src) node then (out ++ [l.(dst)])%list else out in
      let out := if String.eqb l.(dst) node then (out ++ [l.(src)])%list else out in
      neighbors_loop rest node out
  end.

(** [Topology.neighbors(node)]: [list(sorted(set(out)))].  Python orders
    [str] by code point, which is the order of the bytes. *)
Definition neighbors (self : Topology) (node : string) : list string :=
  merge_sort String.le
    (elements (list_to_set (neighbors_loop self.(links) node []) : gset string)).

(** Current state of resources (from telemetry). *)
Record ResourceSnapshot : Type := {
  timestamp : float;
  link_utilization : LinkMap;
  link_loss : LinkMap;
  link_latency_ms : LinkMap;
  notes : gmap string pyval;
}.

Record Intent : Type := {
  intent_id : string;
  created_at : float;
  kind : string;
  payload : gmap string pyval;
}.

(** Guardrails. *)
Record Policy : Type := {
  max_link_utilization : float;
  max_packet_loss : float;
  require_verification : bool;
}.

Definition default_policy : Policy :=
  {| max_link_utilization := 0.85; max_packet_loss := 0.02;
     require_verification := true |}.

(** An atomic change the executor can apply. *)
Record Action : Type := {
  action_type : string;
  params : gmap string pyval;
}.

Record Plan : Type := {
  plan_id : string;
  plan_intent_id : string;
  plan_created_at : float;
  actions : list Action;
  expected_impact : gmap string pyval;
}.

Record ExecutionResult : Type := {
  result_plan_id : string;
  ok : bool;
  applied_actions : list Action;
  before : ResourceSnapshot;
  after : ResourceSnapshot;
  message : string;
}.

(** One entry of [Engine.audit_log]. *)
Record AuditEntry : Type := {
  audit_intent_id : string;
  audit_plan_id : string;
  audit_ok : bool;
  audit_message : string;
  audit_ts : float;
}.

(** What lies outside the process: the readings [time.time()] will give, the
    identifiers [uuid.uuid4()] will draw, how many of each were taken, and
    the actions the simulated executor has printed a line for. *)
Record World : Type := {
  clock : nat -> float;
  uuids : nat -> string;
  ticks : nat;
  drawn : nat;
  console : list Action;
}.

(** [time.time()]. *)
Definition time_time (w : World) : float * World :=
  (w.(clock) w.(ticks),
   {| clock := w.(clock); uuids := w.(uuids); ticks := S w.(ticks);
      drawn := w.(drawn); console := w.(console) |}).

(** [str(uuid.uuid4())]. *)
Definition uuid4 (w : World) : string * World :=
  (w.(uuids) w.(drawn),
   {| clock := w.(clock); uuids := w.(uuids); ticks := w.(ticks);
      drawn := S w.(drawn); console := w.(console) |}).

Definition print_action (a : Action) (w : World) : World :=
  {| clock := w.(clock); uuids := w.(uuids); ticks := w.(ticks);
     drawn := w.(drawn); console := w.(console) ++ [a] |}.

(** The adapter interfaces.  A provider or an executor is an object with a
    state of its own; a call returns the object as it leaves it.  A telemetry
    read returns a snapshot; applying actions either returns or raises. *)
Class TelemetryProvider (T : Type) : Type :=
  snapshot : T -> World -> ResourceSnapshot * T * World.

Class ExecutorAdapter (X : Type) : Type :=
  apply : X -> list Action -> World -> result unit * X * World.

Section Engine.

(** [float(s)] for a [str]: the number the text spells, or the [ValueError]
    of a text that spells none. *)
Variable float_of_str : string -> result float.

(** [float(v)]. *)
Definition to_float (v : pyval) : result float :=
  match v with
  | VFloat x => Ok x
  | VInt k => int_to_float k
  | VStr s => float_of_str s
  | VNone => Raise (TypeError "float() argument must be a string or a real number, not 'NoneType'")
  end.

(** [Intent.bandwidth(...)]: the factory draws the identifier and reads the
    clock. *)
Definition bandwidth (source destination : string) (bandwidth_gbps : pyval)
  (max_latency_ms : pyval) (priority : Z) (w : World) : Intent * World :=
  let '(id, w) := uuid4 w in
  let '(now, w) := time_time w in
  ({| intent_id := id; created_at := now; kind := "bandwidth";
      payload :=
        <["source" := VStr source]>
        (<["destination" := VStr destination]>
        (<["bandwidth_gbps" := bandwidth_gbps]>
        (<["max_latency_ms" := max_latency_ms]>
        (<["priority" := VInt priority]> ∅)))) |}, w).

(** [Planner.plan(topology, snapshot, intent, policy)]. *)
Definition plan (topology : Topology) (snap : ResourceSnapshot)
  (intent : Intent) (policy : Policy) (w : World) : result Plan * World :=
  if negb (String.eqb intent.(kind) "bandwidth") then
    (Raise (ValueError ("Unsupported intent kind: " ++ intent.(kind))), w)
  else
    match
      (src ← getitem intent.(payload) "source";
       dst ← getitem intent.(payload) "destination";
       bw ← getitem intent.(payload) "bandwidth_gbps" ≫= to_float;
       let max_lat := get intent.(payload) "max_latency_ms" VNone in
       Ok [ {| action_type := "allocate_flow";
               params :=
                 <["source" := src]>
                 (<["destination" := dst]>
                 (<["bandwidth_gbps" := VFloat bw]>
                 (<["max_latency_ms" := max_lat]>
                 (<["policy_max_util" := VFloat policy.(max_link_utilization)]>
                 (<["policy_max_loss" := VFloat policy.(max_packet_loss)]> ∅))))) |} ])
    with
    | Raise e => (Raise e, w)
    | Ok acts =>
        let '(id, w) := uuid4 w in
        let '(now, w) := time_time w in
        (Ok {| plan_id := id; plan_intent_id := intent.(intent_id);
               plan_created_at := now; actions := acts;
               expected_impact :=
                 <["goal" := VStr "satisfy_bandwidth_intent"]>
                 (<["notes" := VStr "MVP stub planner emits allocate_flow action."]> ∅) |},
         w)
    end.

(** The verification loop over [after.link_loss.items()]: [ok] and [msg] are
    the two variables it may overwrite; it stops at the first loss above the
    policy's bound. *)
Fixpoint scan_losses (policy : Policy) (items : LinkMap) (ok : bool) (msg : string)
  : bool * string :=
  match items with
  | [] => (ok, msg)
  | (_, loss) :: rest =>
      if gt loss policy.(max_packet_loss) then
        (false, "verification_failed: loss " ++ format_3f loss ++ " > "
                  ++ format_3f policy.(max_packet_loss))
      else scan_losses policy rest ok msg
  end.

Definition verify (policy : Policy) (after : ResourceSnapshot) : bool * string :=
  if policy.(require_verification) then
    scan_losses policy after.(link_loss) true "applied"
  else (true, "applied").

Context {T X : Type} `{!TelemetryProvider T} `{!ExecutorAdapter X}.

Record Engine : Type := {
  topology : Topology;
  telemetry : T;
  executor : X;
  policy : Policy;
  audit_log : list AuditEntry;
}.

(** [Engine(topology, telemetry, executor, policy)]. *)
Definition init (topology : Topology) (telemetry : T) (executor : X)
  (policy : option Policy) : Engine :=
  {| topology := topology; telemetry := telemetry; executor := executor;
     policy := default default_policy policy; audit_log := [] |}.

Definition with_telemetry (self : Engine) (tel : T) : Engine :=
  {| topology := self.(topology); telemetry := tel; executor := self.(executor);
     policy := self.(policy); audit_log := self.(audit_log) |}.

Definition with_executor (self : Engine) (ex : X) : Engine :=
  {| topology := self.(topology); telemetry := self.(telemetry); executor := ex;
     policy := self.(policy); audit_log := self.(audit_log) |}.

Definition audit_append (self : Engine) (entry : AuditEntry) : Engine :=
  {| topology := self.(topology); telemetry := self.(telemetry);
     executor := self.(executor); policy := self.(policy);
     audit_log := self.(audit_log) ++ [entry] |}.

(** [Engine.submit_intent(intent)].  An exception of the planner or of the
    executor leaves through the call: the engine and the world are returned
    as they are at that point. *)
Definition submit_intent (self : Engine) (intent : Intent) (w : World)
  : result ExecutionResult * Engine * World :=
  let '(before, tel, w) := snapshot self.(telemetry) w in
  let self := with_telemetry self tel in
  match plan self.(topology) before intent self.(policy) w with
  | (Raise e, w) => (Raise e, self, w)
  | (Ok plan, w) =>
      match apply self.(executor) plan.(actions) w with
      | (Raise e, ex, w) => (Raise e, with_executor self ex, w)
      | (Ok _, ex, w) =>
          let self := with_executor self ex in
          let '(after, tel, w) := snapshot self.(telemetry) w in
          let self := with_telemetry self tel in
          let '(ok, msg) := verify self.(policy) after in
          let '(ts, w) := time_time w in
          let self :=
            audit_append self
              {| audit_intent_id := intent.(intent_id);
                 audit_plan_id := plan.(plan_id);
                 audit_ok := ok; audit_message := msg; audit_ts := ts |} in
          (Ok {| result_plan_id := plan.(plan_id); ok := ok;
                 applied_actions := plan.(actions);
                 before := before; after := after; message := msg |},
           self, w)
      end
  end.

End Engine.

Arguments Engine T X : clear implicits.

(** *** The simulation adapters *)

(** [SimTelemetry]: remembers when it was last read. *)
Record SimTelemetry : Type := { _t : float }.

Definition sim_snapshot (self : SimTelemetry) (w : World)
  : ResourceSnapshot * SimTelemetry * World :=
  let '(now, w) := time_time w in
  ({| timestamp := now;
      link_utilization := [(("A", "B"), 0.50); (("B", "C"), 0.60); (("A", "C"), 0.90)]%float;
      link_loss := [(("A", "B"), 0.005); (("B", "C"), 0.010); (("A", "C"), 0.030)]%float;
      link_latency_ms := [(("A", "B"), 8.0); (("B", "C"), 12.0); (("A", "C"), 30.0)]%float;
      notes := ∅ |},
   {| _t := now |}, w).

#[export] Instance SimTelemetry_provider : TelemetryProvider SimTelemetry := sim_snapshot.

(** [SimExecutor]: prints a line per action and never fails. *)
Variant SimExecutor : Type := SimExecutor_object.

Definition sim_apply (self : SimExecutor) (acts : list Action) (w : World)
  : result unit * SimExecutor * World :=
  (Ok tt, self, fold_left (fun w a => print_action a w) acts w).

#[export] Instance SimExecutor_adapter : ExecutorAdapter SimExecutor := sim_apply.

End ControlPlane.

(** ** What the specification says, in the terms of the model *)

Module Spec.
Import Py Scheduler ControlPlane.

#[local] Open Scope float_scope.
#[local] Open Scope list_scope.

(** The action a bandwidth intent asks for: the intent's endpoints,
    bandwidth and latency bound, and the policy's two thresholds. *)
Definition allocate_flow (source destination max_lat : pyval) (bw : float)
  (pol : Policy) : Action :=
  {| action_type := "allocate_flow";
     params :=
       <["source" := source]>
       (<["destination" := destination]>
       (<["bandwidth_gbps" := VFloat bw]>
       (<["max_latency_ms" := max_lat]>
       (<["policy_max_util" := VFloat pol.(max_link_utilization)]>
       (<["policy_max_loss" := VFloat pol.(max_packet_loss)]> ∅))))) |}.

(** [x] is a first maximum of [items] under [key]: no item's key exceeds
    its key, and no earlier item's key reaches it. *)
Definition first_max {A : Type} (key : A -> float) (x : A) (items : list A) : Prop :=
  exists pre post,
    items = pre ++ x :: post /\
    Forall (fun y => le (key x) (key y) = false) pre /\
    Forall (fun y => gt (key y) (key x) = false) post.

(** The score as the specification writes it, the SLO's entries as the
    divisors. *)
Definition score_formula (est : Estimate) (slo : SLO) : result float :=
  lat_pen ← truediv est.(lat_ms) slo.(latency_p95_ms);
  cost_pen ← truediv est.(cost) slo.(cost_per_1k);
  energy_pen ← truediv est.(energy) slo.(energy_j_max);
  truediv 1.0 (0.55 * lat_pen + 0.30 * cost_pen + 0.15 * energy_pen).

(** The weighted penalty whose reciprocal is the score. *)
Definition penalty (est : Estimate) (slo : SLO) : float :=
  0.55 * (est.(lat_ms) / max2 slo.(latency_p95_ms) 1e-6)
  + 0.30 * (est.(cost) / max2 slo.(cost_per_1k) 1e-9)
  + 0.15 * (est.(energy) / max2 slo.(energy_j_max) 1e-9).

(** A candidate is safe when its latency is within 1.05 times the SLO's and
    its energy within 1.10 times the SLO's. *)
Definition safe (slo : SLO) (c : string * Estimate) : bool :=
  le c.2.(lat_ms) (slo.(latency_p95_ms) * 1.05) &&
  le c.2.(energy) (slo.(energy_j_max) * 1.1).

(** The candidates a scheduler chooses among: the safe ones, or all of them
    when none is safe. *)
Definition safe_or_all (slo : SLO) (all : list (string * Estimate))
  : list (string * Estimate) :=
  match List.filter (safe slo) all with
  | [] => all
  | kept => kept
  end.

(** Every candidate with its estimate, when all three estimates are real
    numbers. *)
Definition real_estimates (libm_pow : float -> float -> float)
  (context : gmap string float) : result (list (string * Estimate)) :=
  mapM (fun t => est ← Models.estimate libm_pow t context ≫= comparable; Ok (t, est))
       cands.

(** The states of an epsilon-greedy scheduler: as constructed, and after any
    call of [observe], whether it returned or raised. *)
Inductive reachable : ConstrainedEpsilonGreedy.t -> Prop :=
| reachable_init eps canary :
    reachable (ConstrainedEpsilonGreedy.init eps canary)
| reachable_observe self target actual :
    reachable self ->
    reachable (ConstrainedEpsilonGreedy.observe self target actual).2.

(** The invariant of the two dicts: the three targets and nothing else,
    every count at least one. *)
Definition tracked (self : ConstrainedEpsilonGreedy.t) : Prop :=
  (forall t, t ∈ cands ->
     exists m k,
       ConstrainedEpsilonGreedy.mu self !! t = Some m /\
       ConstrainedEpsilonGreedy.n self !! t = Some k /\ (1 <= k)%Z) /\
  (forall t, t ∉ cands ->
     ConstrainedEpsilonGreedy.mu self !! t = None /\
     ConstrainedEpsilonGreedy.n self !! t = None).

(** The reward of an observed outcome, as the specification writes it. *)
Definition reward_formula (actual : gmap string float) : float :=
  1.0 / max2 (get actual "cost" 1e-4) 1e-4
  - 0.5 * max2 0.0 (get actual "lat_ms" 0.0).

(** The value the exploit branch gives a candidate: its score plus its
    running average reward. *)
Definition exploit_value (self : ConstrainedEpsilonGreedy.t) (slo : SLO)
  (c : string * Estimate) (v : string * Estimate * float) : Prop :=
  exists s m k kf,
    score c.2 slo = Ok s /\
    ConstrainedEpsilonGreedy.mu self !! c.1 = Some m /\
    ConstrainedEpsilonGreedy.n self !! c.1 = Some k /\
    int_to_float k = Ok kf /\
    v = (c.1, c.2, s + m / kf).

End Spec.

(** ** Inputs the statements below are run on *)

Module Inputs.
Import Py Scheduler ControlPlane Spec.

#[local] Open Scope float_scope.

(** A C library [pow] for runs that never reach it: with the default
    context every base is [1.0], which [**] answers itself. *)
Definition libm_unreached : float -> float -> float := fun _ _ => nan.

(** A [float()] on text for runs whose payload holds numbers: it is never
    called there. *)
Definition text_unreached : string -> result float :=
  fun s => Raise (ValueError ("could not convert string to float: " ++ s)).

(** The SLO of the module's demo. *)
Definition demo_slo : SLO :=
  {| latency_p95_ms := 2.0; cost_per_1k := 0.0005; energy_j_max := 6.0 |}.

(** An SLO that bounds nothing. *)
Definition unbounded_slo : SLO :=
  {| latency_p95_ms := infinity; cost_per_1k := infinity;
     energy_j_max := infinity |}.

(** An SLO whose cost budget lies under the floor of [score]. *)
Definition tiny_budget_slo : SLO :=
  {| latency_p95_ms := 2.0; cost_per_1k := 5e-10; energy_j_max := 6.0 |}.

(** The photonic estimate under the default context. *)
Definition photonic_default : Estimate :=
  {| lat_ms := 0.4 * (1.0 + 0.25 * 1.0); cost := 0.0002 * (1.0 + 0.20 * 1.0);
     energy := 1.0 * (1.0 + 0.35 * 1.0) |}.

Definition gpu_default : Estimate :=
  {| lat_ms := 1.2 * (1.0 + 0.25 * 1.0); cost := 0.0005 * (1.0 + 0.20 * 1.0);
     energy := 5.0 * (1.0 + 0.35 * 1.0) |}.

Definition cpu_default : Estimate :=
  {| lat_ms := 4.0 * (1.0 + 0.25 * 1.0); cost := 0.0001 * (1.0 + 0.20 * 1.0);
     energy := 2.0 * (1.0 + 0.35 * 1.0) |}.

Definition default_estimates : list (string * Estimate) :=
  [("photonic", photonic_default); ("gpu", gpu_default); ("cpu", cpu_default)].

(** What the two schedulers return for the demo's SLO under the default
    context, the epsilon-greedy one exploiting with a canary of 0.05. *)
Definition demo_best : BestInfo :=
  {| best_target := "photonic"; best_expected := photonic_default;
     best_score := 3.1720856463124507 |}.

Definition demo_exploit : GreedyInfo :=
  {| target := "photonic"; expected := photonic_default; mode := "exploit";
     canary_fraction := 0.05 |}.

(** An outcome whose cost is a NaN. *)
Definition nan_outcome : gmap string float := <["cost" := nan]> ∅.

(** A context with a negative batch size. *)
Definition negative_batch : gmap string float := <["batch_size" := (-1)]> ∅.

(** The outcome the module's demo reports back. *)
Definition demo_outcome : gmap string float :=
  <["lat_ms" := 1.5]> (<["cost" := 0.0006]> ∅).

(** Three reports: the demo's outcome for gpu, an outcome for a target that
    is not tracked, and an empty outcome for gpu. *)
Definition three_reports : list (string * gmap string float) :=
  [("gpu", demo_outcome); ("tpu", demo_outcome); ("gpu", ∅)].

(** A world with the next readings of the clock, one second apart, and the
    next identifiers. *)
Definition world0 : World :=
  {| clock := fun i =>
       nth i [1700000000; 1700000001; 1700000002; 1700000003; 1700000004;
              1700000005; 1700000006; 1700000007]%float 1700000008%float;
     uuids := fun i =>
       nth i ["uuid-0"; "uuid-1"; "uuid-2"; "uuid-3"]%string "uuid-4"%string;
     ticks := 0; drawn := 0; console := [] |}.

(** An executor whose [apply] raises, with the detail it was built with. *)
Record FailingExecutor : Type := { failure : string }.

#[export] Instance FailingExecutor_adapter : ExecutorAdapter FailingExecutor :=
  fun self _ w => (Raise (OtherError self.(failure)), self, w).

(** The topology, the policy and the intent of the module's example. *)
Definition example_topology : Topology :=
  {| nodes := ["A"; "B"; "C"];
     links :=
       [ {| src := "A"; dst := "B"; capacity_gbps := 100; base_latency_ms := 8; tags := ∅ |};
         {| src := "B"; dst := "C"; capacity_gbps := 100; base_latency_ms := 12; tags := ∅ |};
         {| src := "A"; dst := "C"; capacity_gbps := 50; base_latency_ms := 30; tags := ∅ |} ] |}.

Definition example_policy : Policy :=
  {| max_link_utilization := 0.85; max_packet_loss := 0.02;
     require_verification := true |}.

Definition example_intent : Intent :=
  (bandwidth "A" "C" (VInt 50) (VInt 25) 5 world0).1.

Definition world1 : World :=
  (bandwidth "A" "C" (VInt 50) (VInt 25) 5 world0).2.

Definition example_engine : Engine SimTelemetry SimExecutor :=
  init example_topology {| _t := 1700000000 |} SimExecutor_object
       (Some example_policy).

Definition failing_engine : Engine SimTelemetry FailingExecutor :=
  init example_topology {| _t := 1700000000 |} {| failure := "link down" |}
       (Some example_policy).

(** The example's first telemetry read, the plan made after it, and the
    world once the plan is made and once it is applied. *)
Definition first_read : ResourceSnapshot * SimTelemetry * World :=
  snapshot {| _t := 1700000000 |} world1.

Definition example_plan : Plan :=
  {| plan_id := "uuid-1"; plan_intent_id := "uuid-0";
     plan_created_at := 1700000002;
     actions := [allocate_flow (VStr "A") (VStr "C") (VInt 25) 50 example_policy];
     expected_impact :=
       <["goal" := VStr "satisfy_bandwidth_intent"]>
       (<["notes" := VStr "MVP stub planner emits allocate_flow action."]> ∅) |}.

Definition world_planned : World := (time_time (uuid4 first_read.2).2).2.

Definition world_applied : World :=
  print_action (allocate_flow (VStr "A") (VStr "C") (VInt 25) 50 example_policy)
               world_planned.

(** The example's engine under a policy whose loss bound is a NaN. *)
Definition nan_engine : Engine SimTelemetry SimExecutor :=
  init example_topology {| _t := 1700000000 |} SimExecutor_object
       (Some {| max_link_utilization := 0.85; max_packet_loss := nan;
                require_verification := true |}).

(** A bandwidth intent whose payload lacks the destination. *)
Definition source_only_intent : Intent :=
  {| intent_id := "intent-8"; created_at := 1700000000; kind := "bandwidth";
     payload := <["source" := VStr "A"]> ∅ |}.

(** An intent of a kind the planner does not know. *)
Definition latency_intent : Intent :=
  {| intent_id := "intent-7"; created_at := 1700000000; kind := "latency";
     payload := <["source" := VStr "A"]> ∅ |}.

End Inputs.

(** ** Facts about the runtime *)

Module PyFacts.
Import Py Spec.

#[local] Open Scope float_scope.
#[local] Open Scope list_scope.

(** *** The order of binary64 floats

    The comparisons are specified on [spec_float]; the cases are the
    classes of the three numbers and, for finite ones, the comparison of
    exponents and mantissas. *)

Ltac compare_cases :=
  repeat match goal with
  | |- context [Z.compare ?a ?b] => destruct (Z.compare_spec a b)
  | |- context [Pos.compare_cont Eq ?a ?b] =>
      change (Pos.compare_cont Eq a b) with (Pos.compare a b);
      destruct (Pos.compare_spec a b)
  end.

Ltac by_classes :=
  repeat match goal with s : bool |- _ => destruct s end;
  cbn; try congruence; compare_cases; cbn; intros; try congruence; try lia.

Lemma SFltb_leb_false (x y z : spec_float) :
  SFltb x y = true -> SFltb x z = false -> SFleb y z = false.
Proof.
  unfold SFltb, SFleb.
  destruct x as [sx|sx| |sx mx ex], y as [sy|sy| |sy my ey], z as [sz|sz| |sz mz ez];
    by_classes.
Qed.

Lemma SFltb_leb (x y : spec_float) : SFltb x y = true -> SFleb x y = true.
Proof. unfold SFltb, SFleb. destruct (SFcompare x y) as [[]|]; congruence. Qed.

Lemma SFltb_irrefl (x : spec_float) : SFltb x x = false.
Proof. unfold SFltb. destruct x as [sx|sx| |sx mx ex]; by_classes. Qed.

Lemma SFeqb_zero_ltb (x y : spec_float) (s : bool) :
  SFeqb x (S754_zero s) = true -> SFltb x y = SFltb (S754_zero s) y.
Proof.
  unfold SFeqb, SFltb.
  destruct x as [sx|sx| |sx mx ex], y as [sy|sy| |sy my ey]; by_classes.
Qed.

(** If [a < b] and not [a < c], then not [b <= c]. *)
Lemma lt_le_false (a b c : float) :
  lt a b = true -> lt a c = false -> le b c = false.
Proof. unfold lt, le. rewrite !FloatAxioms.ltb_spec, FloatAxioms.leb_spec. apply SFltb_leb_false. Qed.

Lemma lt_le (a b : float) : lt a b = true -> le a b = true.
Proof. unfold lt, le. rewrite FloatAxioms.ltb_spec, FloatAxioms.leb_spec. apply SFltb_leb. Qed.

Lemma lt_irrefl (a : float) : lt a a = false.
Proof. unfold lt. rewrite FloatAxioms.ltb_spec. apply SFltb_irrefl. Qed.

(** If [a <= b] then not [b < a]. *)
Lemma le_not_gt (a b : float) : le a b = true -> gt a b = false.
Proof.
  intros Hle. unfold gt. fold (lt b a).
  destruct (lt b a) eqn:Hlt; [|reflexivity].
  pose proof (lt_le_false b a b Hlt (lt_irrefl b)). congruence.
Qed.

Lemma Prim2SF_zero : Prim2SF 0 = S754_zero false.
Proof. reflexivity. Qed.

(** A float equal to zero compares with the others as zero does. *)
Lemma feq_zero_lt (x y : float) : feq x 0 = true -> lt x y = lt 0 y.
Proof.
  unfold feq, lt. rewrite FloatAxioms.eqb_spec, !FloatAxioms.ltb_spec, Prim2SF_zero.
  apply SFeqb_zero_ltb.
Qed.

(** [max(x, c)] is not zero when [c] is positive: the divisions by such a
    maximum do not raise. *)
Lemma max2_nonzero (x c : float) : lt 0 c = true -> feq (max2 x c) 0 = false.
Proof.
  intros Hc. unfold max2, gt. fold (lt x c).
  destruct (lt x c) eqn:Hx.
  - destruct (feq c 0) eqn:Hz; [|reflexivity].
    rewrite <- (feq_zero_lt c c Hz), lt_irrefl in Hc. discriminate.
  - destruct (feq x 0) eqn:Hz; [|reflexivity].
    rewrite (feq_zero_lt x c Hz) in Hx. congruence.
Qed.

Lemma truediv_max2 (a x c : float) :
  lt 0 c = true -> truediv a (max2 x c) = Ok (a / max2 x c).
Proof. intros Hc. unfold truediv. now rewrite max2_nonzero. Qed.

(** *** [max] with a key *)

(** The loop keeps a first maximum of what it has seen: [pre] came before
    the item kept, [mid] after it. *)
Lemma max_loop_first_max {A : Type} (key : A -> float) (items pre mid : list A) (best : A) :
  Forall (fun y => le (key best) (key y) = false) pre ->
  Forall (fun y => gt (key y) (key best) = false) mid ->
  first_max key (max_loop key best items) (pre ++ best :: mid ++ items).
Proof.
  revert pre mid best.
  induction items as [|item rest IH]; intros pre mid best Hpre Hmid; cbn [max_loop].
  - exists pre, mid. rewrite app_nil_r. auto.
  - destruct (gt (key item) (key best)) eqn:Hgt.
    + replace (pre ++ best :: mid ++ item :: rest)
        with ((pre ++ best :: mid) ++ item :: [] ++ rest)
        by (now rewrite <- app_assoc).
      apply IH; [|constructor].
      apply Forall_app. split; [|constructor].
      * eapply Forall_impl; [exact Hpre|]. intros y Hy.
        apply (lt_le_false (key best)); [exact Hgt|].
        destruct (lt (key best) (key y)) eqn:E; [|reflexivity].
        apply lt_le in E. congruence.
      * apply (lt_le_false (key best)); [exact Hgt | apply lt_irrefl].
      * eapply Forall_impl; [exact Hmid|]. intros y Hy.
        apply (lt_le_false (key best)); [exact Hgt | exact Hy].
    + replace (pre ++ best :: mid ++ item :: rest)
        with (pre ++ best :: (mid ++ [item]) ++ rest)
        by (now rewrite <- app_assoc).
      apply IH; [exact Hpre|].
      apply Forall_app. split; [exact Hmid | constructor; [exact Hgt | constructor]].
Qed.

(** [max(items, key=key)] returns a first maximum of a list that is not
    empty. *)
Lemma max_by_first_max {A : Type} (key : A -> float) (items : list A) :
  items <> [] -> exists x, max_by key items = Ok x /\ first_max key x items.
Proof.
  destruct items as [|first rest]; [congruence|]. intros _.
  exists (max_loop key first rest). split; [reflexivity|].
  apply (max_loop_first_max key rest [] [] first); constructor.
Qed.

Lemma first_max_elem {A : Type} (key : A -> float) (x : A) (items : list A) :
  first_max key x items -> x ∈ items.
Proof. intros (pre & post & -> & _). apply elem_of_app. right. left. Qed.

End PyFacts.

(** ** When the estimates are real numbers *)

Module EstimateFacts.
Import Py Scheduler Spec Inputs.

#[local] Open Scope float_scope.
#[local] Open Scope list_scope.

Section Estimator.

Variable libm_pow : float -> float -> float.

(** A base that is not negative, raised by a C library that stays finite,
    gives a float. *)
Lemma float_pow_real (iv iw : float) :
  lt iv 0 = false ->
  is_infinity (libm_pow iv iw) = false ->
  exists x, float_pow libm_pow iv iw = Ok (Real x).
Proof.
  intros Hneg Hfin. unfold float_pow. rewrite Hneg, Hfin.
  destruct (is_nan iv), (is_infinity iv), (feq iv 0), (feq iv 1); eauto.
Qed.

(** With a batch size and a concurrency that are not negative, every
    candidate has a real estimate. *)
Lemma real_estimates_defined (context : gmap string float) :
  lt (get context "batch_size" 1.0) 0 = false ->
  lt (get context "concurrency" 1.0) 0 = false ->
  is_infinity (libm_pow (get context "batch_size" 1.0) 0.5) = false ->
  is_infinity (libm_pow (get context "concurrency" 1.0) 0.6) = false ->
  exists all, real_estimates libm_pow context = Ok all.
Proof.
  intros Hb Hc Hbf Hcf.
  destruct (float_pow_real _ 0.5 Hb Hbf) as [pb Hpb].
  destruct (float_pow_real _ 0.6 Hc Hcf) as [pc Hpc].
  unfold real_estimates, cands. cbn [mapM]. unfold Models.estimate.
  rewrite Hpb, Hpc. cbn. eauto.
Qed.

End Estimator.

End EstimateFacts.

(** ** scheduler_baselines.py: the score and the best-score scheduler *)

Module SchedulerFacts.
Import Py Scheduler Spec Inputs PyFacts.

#[local] Open Scope float_scope.
#[local] Open Scope list_scope.

(** The three inner divisions of [score] have a positive floor under their
    divisor, so only the reciprocal can raise. *)
Lemma score_penalty (est : Estimate) (slo : SLO) :
  score est slo = truediv 1.0 (penalty est slo).
Proof.
  unfold score, penalty.
  rewrite !truediv_max2 by reflexivity. reflexivity.
Qed.

Lemma score_defined (est : Estimate) (slo : SLO) :
  feq (penalty est slo) 0 = false -> score est slo = Ok (1.0 / penalty est slo).
Proof. intros H. rewrite score_penalty. unfold truediv. now rewrite H. Qed.

(** Where the SLO's entry is not under the floor, the floor changes
    nothing. *)
Lemma max2_floor (x c : float) : lt x c = false -> max2 x c = x.
Proof. unfold max2, gt, lt. now intros ->. Qed.

Section Estimates.

Variable libm_pow : float -> float -> float.
Variable context : gmap string float.

#[local] Abbreviation real_of :=
  (fun t : string => est ← Models.estimate libm_pow t context ≫= comparable; Ok (t, est)).

#[local] Abbreviation raw_of :=
  (fun t : string => est ← Models.estimate libm_pow t context; Ok (t, est)).

Lemma mapM_real_raw (ts : list string) (all : list (string * Estimate)) :
  mapM real_of ts = Ok all ->
  mapM raw_of ts = Ok (map (fun c => (c.1, RealEst c.2)) all).
Proof.
  revert all. induction ts as [|t ts IH]; intros all; cbn.
  - intros [= <-]. reflexivity.
  -     destruct (Models.estimate libm_pow t context) as [[est|]|e]; cbn; try discriminate.
    destruct (mapM real_of ts) as [tl|e]; cbn; try discriminate.
    intros [= <-]. now rewrite (IH tl eq_refl).
Qed.

Lemma mapM_real_names (ts : list string) (all : list (string * Estimate)) :
  mapM real_of ts = Ok all -> all.*1 = ts.
Proof.
  revert all. induction ts as [|t ts IH]; intros all; cbn.
  - now intros [= <-].
  -     destruct (Models.estimate libm_pow t context) as [[est|]|e]; cbn; try discriminate.
    destruct (mapM real_of ts) as [tl|e]; cbn; try discriminate.
    intros [= <-]. cbn. now rewrite (IH tl eq_refl).
Qed.

(** The loop of [ConstrainedBestScore.decide] keeps the safe candidates, in
    order. *)
Lemma collect_safe_filter (slo : SLO) (ts : list string)
  (acc all : list (string * Estimate)) :
  mapM real_of ts = Ok all ->
  ConstrainedBestScore.collect_safe libm_pow slo context ts acc
  = Ok (acc ++ List.filter (safe slo) all).
Proof.
  revert acc all. induction ts as [|t ts IH]; intros acc all; cbn.
  - intros [= <-]. cbn. now rewrite app_nil_r.
  -     destruct (Models.estimate libm_pow t context) as [[est|]|e]; cbn; try discriminate.
    destruct (mapM real_of ts) as [tl|e] eqn:Htl; cbn; try discriminate.
    intros [= <-]. rewrite (IH _ tl eq_refl). cbn.
    unfold safe at 2, _safe. cbn.
    destruct (_ && _); [now rewrite <- app_assoc | reflexivity].
Qed.

Lemma comparable_all (all : list (string * Estimate)) :
  mapM (fun '(t, est) => est ← comparable est; Ok (t, est))
       (map (fun c => (c.1, RealEst c.2)) all) = Ok all.
Proof.
  induction all as [|[t e] all IH]; cbn; [reflexivity|].
  now rewrite IH.
Qed.

(** The scores of candidates whose penalty is not zero. *)
Lemma scored_defined (slo : SLO) (cs : list (string * Estimate)) :
  Forall (fun c => feq (penalty c.2 slo) 0 = false) cs ->
  ConstrainedBestScore.scored slo cs
  = Ok (map (fun c => (c, 1.0 / penalty c.2 slo)) cs).
Proof.
  unfold ConstrainedBestScore.scored.
  induction 1 as [|[t e] cs Hc _ IH]; cbn; [reflexivity|].
  cbn in Hc. rewrite (score_defined _ _ Hc). cbn. now rewrite IH.
Qed.

Lemma safe_or_all_subset (slo : SLO) (all : list (string * Estimate)) c :
  c ∈ safe_or_all slo all -> c ∈ all.
Proof.
  unfold safe_or_all. destruct (List.filter (safe slo) all) eqn:E; [auto|].
  rewrite <- E. rewrite list_elem_of_In, filter_In, <- list_elem_of_In. tauto.
Qed.

Lemma safe_or_all_nonempty (slo : SLO) (all : list (string * Estimate)) :
  all <> [] -> safe_or_all slo all <> [].
Proof. unfold safe_or_all. now destruct (List.filter (safe slo) all). Qed.

(** What [ConstrainedBestScore.decide] computes once the estimates are
    known to be real: the scores of the safe candidates, or of all of them,
    and their maximum. *)
Lemma best_score_decide_eq (slo : SLO) (all : list (string * Estimate)) :
  real_estimates libm_pow context = Ok all ->
  ConstrainedBestScore.decide libm_pow slo context
  = (triples ← ConstrainedBestScore.scored slo (safe_or_all slo all);
     '(best_t, best_est, best_s) ← max_by snd triples;
     Ok (best_t, {| best_target := best_t; best_expected := best_est;
                    best_score := best_s |})).
Proof.
  intros Hall. unfold ConstrainedBestScore.decide.
  rewrite (collect_safe_filter slo cands [] all Hall). cbn [app mbind result_bind].
  unfold safe_or_all. destruct (List.filter (safe slo) all) eqn:E; [|reflexivity].
  unfold ConstrainedBestScore.all_cands.
  rewrite (mapM_real_raw cands all Hall). cbn [mbind result_bind].
  now rewrite comparable_all.
Qed.

Lemma real_estimates_names (all : list (string * Estimate)) :
  real_estimates libm_pow context = Ok all -> all.*1 = cands.
Proof. apply mapM_real_names. Qed.

Lemma safe_or_all_cands (slo : SLO) (all : list (string * Estimate)) c :
  real_estimates libm_pow context = Ok all ->
  c ∈ safe_or_all slo all -> c.1 ∈ cands.
Proof.
  intros Hall Hc. rewrite <- (real_estimates_names all Hall).
  apply list_elem_of_fmap. exists c. split; [reflexivity|].
  now apply safe_or_all_subset in Hc.
Qed.

Lemma real_estimates_nonempty (all : list (string * Estimate)) :
  real_estimates libm_pow context = Ok all -> all <> [].
Proof. intros Hall ->. now apply real_estimates_names in Hall. Qed.

(** With real estimates and no zero penalty among the candidates chosen
    from, [decide] returns; what it returns is a first maximum of their
    scores. *)
Lemma best_score_decide_first_max (slo : SLO) (all : list (string * Estimate)) :
  real_estimates libm_pow context = Ok all ->
  Forall (fun c => feq (penalty c.2 slo) 0 = false) (safe_or_all slo all) ->
  exists t e s,
    ConstrainedBestScore.decide libm_pow slo context
    = Ok (t, {| best_target := t; best_expected := e; best_score := s |}) /\
    first_max snd (t, e, s)
      (map (fun c => (c, 1.0 / penalty c.2 slo)) (safe_or_all slo all)).
Proof.
  intros Hall Hpen.
  rewrite (best_score_decide_eq slo all Hall), (scored_defined slo _ Hpen).
  cbn [mbind result_bind].
  destruct (max_by_first_max snd
              (map (fun c => (c, 1.0 / penalty c.2 slo)) (safe_or_all slo all)))
    as ([[t e] s] & -> & Hmax).
  - intros E. apply map_eq_nil in E.
    now apply safe_or_all_nonempty in E; [|apply real_estimates_nonempty].
  - exists t, e, s. split; [reflexivity | exact Hmax].
Qed.

End Estimates.

(** C4 (amended).  For every SLO and context under which the three
    estimates are real numbers and no candidate chosen from has a zero
    weighted penalty, [ConstrainedBestScore.decide] returns: a candidate
    counts as safe iff its latency is at most [slo.latency_p95_ms * 1.05]
    and its energy at most [slo.energy_j_max * 1.1], the candidates chosen
    from are the safe ones, or all three when none is safe, and the target
    returned is one of them, so one of photonic, gpu and cpu. *)
Theorem best_score_decide_returns
  (libm_pow : float -> float -> float) (slo : SLO)
  (context : gmap string float) (all : list (string * Estimate)) :
  real_estimates libm_pow context = Ok all ->
  Forall (fun c => feq (penalty c.2 slo) 0 = false) (safe_or_all slo all) ->
  exists t e s,
    ConstrainedBestScore.decide libm_pow slo context
    = Ok (t, {| best_target := t; best_expected := e; best_score := s |}) /\
    (t, e) ∈ safe_or_all slo all /\
    t ∈ cands /\
    score e slo = Ok s.
Proof.
  intros Hall Hpen.
  destruct (best_score_decide_first_max libm_pow context slo all Hall Hpen)
    as (t & e & s & Hdec & Hmax).
  exists t, e, s. split; [exact Hdec|].
  apply first_max_elem, list_elem_of_fmap in Hmax as ([t' e'] & Heq & Hc).
  cbn in Heq. injection Heq as -> -> ->.
  repeat split.
  - exact Hc.
  - apply (safe_or_all_cands libm_pow context slo all _ Hall Hc).
  - apply score_defined. rewrite Forall_forall in Hpen. now apply (Hpen _ Hc).
Qed.

(** The demo's SLO under the default context: every hypothesis holds and
    [decide] returns. *)
Lemma best_score_decide_returns_witness :
  real_estimates libm_unreached ∅ = Ok default_estimates /\
  Forall (fun c => feq (penalty c.2 demo_slo) 0 = false)
         (safe_or_all demo_slo default_estimates) /\
  exists t e s,
    ConstrainedBestScore.decide libm_unreached demo_slo ∅
    = Ok (t, {| best_target := t; best_expected := e; best_score := s |}) /\
    (t, e) ∈ safe_or_all demo_slo default_estimates /\
    t ∈ cands /\
    score e demo_slo = Ok s.
Proof.
  assert (H1 : real_estimates libm_unreached ∅ = Ok default_estimates)
    by (vm_compute; reflexivity).
  assert (H2 : Forall (fun c => feq (penalty c.2 demo_slo) 0 = false)
                 (safe_or_all demo_slo default_estimates))
    by (repeat constructor).
  split; [exact H1 | split; [exact H2|]].
  exact (best_score_decide_returns libm_unreached demo_slo ∅ default_estimates H1 H2).
Defined.

(** C4 as stated fails: under an SLO that bounds nothing every penalty is
    zero, the reciprocal in [score] raises and [decide] with it. *)
Lemma best_score_decide_raises :
  ConstrainedBestScore.decide libm_unreached unbounded_slo ∅
  = Raise ZeroDivisionError.
Proof. vm_compute. reflexivity. Qed.

(** C6 (amended).  [score] is the reciprocal of the weighted penalty whose
    divisors are the SLO's entries floored at 1e-6, 1e-9 and 1e-9; where no
    entry is under its floor this is the formula
    1 / (0.55 (lat/latency_p95_ms) + 0.30 (cost/cost_per_1k)
    + 0.15 (energy/energy_j_max)).  Among the candidates chosen from,
    [ConstrainedBestScore.decide] returns a first maximum of the scores in
    iteration order: no score exceeds the winner's and no earlier one
    reaches it. *)
Theorem score_floored_first_max
  (est : Estimate) (slo : SLO) (libm_pow : float -> float -> float)
  (context : gmap string float) (all : list (string * Estimate)) :
  score est slo = truediv 1.0 (penalty est slo) /\
  (lt slo.(latency_p95_ms) 1e-6 = false ->
   lt slo.(cost_per_1k) 1e-9 = false ->
   lt slo.(energy_j_max) 1e-9 = false ->
   score est slo = score_formula est slo) /\
  (real_estimates libm_pow context = Ok all ->
   Forall (fun c => feq (penalty c.2 slo) 0 = false) (safe_or_all slo all) ->
   exists t e s,
     ConstrainedBestScore.decide libm_pow slo context
     = Ok (t, {| best_target := t; best_expected := e; best_score := s |}) /\
     first_max snd (t, e, s)
       (map (fun c => (c, 1.0 / penalty c.2 slo)) (safe_or_all slo all))).
Proof.
  split; [apply score_penalty | split].
  - intros Hlat Hcost Hen. unfold score, score_formula.
    now rewrite (max2_floor _ _ Hlat), (max2_floor _ _ Hcost), (max2_floor _ _ Hen).
  - apply best_score_decide_first_max.
Qed.

(** The demo's SLO is above the floors, and under the default context the
    winner is a first maximum. *)
Lemma score_floored_first_max_witness :
  (lt demo_slo.(latency_p95_ms) 1e-6 = false /\
   lt demo_slo.(cost_per_1k) 1e-9 = false /\
   lt demo_slo.(energy_j_max) 1e-9 = false /\
   score photonic_default demo_slo = score_formula photonic_default demo_slo) /\
  (real_estimates libm_unreached ∅ = Ok default_estimates /\
   Forall (fun c => feq (penalty c.2 demo_slo) 0 = false)
          (safe_or_all demo_slo default_estimates) /\
   exists t e s,
     ConstrainedBestScore.decide libm_unreached demo_slo ∅
     = Ok (t, {| best_target := t; best_expected := e; best_score := s |}) /\
     first_max snd (t, e, s)
       (map (fun c => (c, 1.0 / penalty c.2 demo_slo))
            (safe_or_all demo_slo default_estimates))).
Proof.
  pose proof (score_floored_first_max photonic_default demo_slo libm_unreached
                ∅ default_estimates) as (_ & Hformula & Hmax).
  assert (H1 : real_estimates libm_unreached ∅ = Ok default_estimates)
    by (vm_compute; reflexivity).
  assert (H2 : Forall (fun c => feq (penalty c.2 demo_slo) 0 = false)
                 (safe_or_all demo_slo default_estimates))
    by (repeat constructor).
  split.
  - split; [reflexivity | split; [reflexivity | split; [reflexivity|]]].
    apply Hformula; reflexivity.
  - split; [exact H1 | split; [exact H2 | exact (Hmax H1 H2)]].
Defined.

Lemma Ok_float_neq (a b : float) : lt a b = true -> Ok a <> Ok b.
Proof. intros Hlt [= ->]. rewrite lt_irrefl in Hlt. discriminate. Qed.

(** C6 as stated fails: with a cost budget under the floor of 1e-9 the
    score is not the value of the formula. *)
Lemma score_differs_from_formula :
  score photonic_default tiny_budget_slo
  <> score_formula photonic_default tiny_budget_slo.
Proof.
  replace (score photonic_default tiny_budget_slo) with (Ok 1.388885585463104e-05)
    by (vm_compute; reflexivity).
  replace (score_formula photonic_default tiny_budget_slo)
    with (Ok 6.9444361858701606e-06) by (vm_compute; reflexivity).
  intros H. symmetry in H. revert H. apply Ok_float_neq. reflexivity.
Qed.

End SchedulerFacts.

(** ** scheduler_baselines.py: the epsilon-greedy scheduler *)

Module GreedyFacts.
Import Py Scheduler Spec Inputs PyFacts SchedulerFacts.
Import ConstrainedEpsilonGreedy.

#[local] Open Scope float_scope.
#[local] Open Scope list_scope.

(** *** [observe] *)

(** The reward never raises: its divisor is at least the floor 1e-4, or a
    NaN. *)
Lemma reward_defined (actual : gmap string float) :
  reward actual = Ok (reward_formula actual).
Proof.
  unfold reward, reward_formula.
  rewrite truediv_max2 by reflexivity. reflexivity.
Qed.

Lemma cands_cases (t : string) :
  t ∈ cands -> t = "photonic" \/ t = "gpu" \/ t = "cpu".
Proof. unfold cands. rewrite !elem_of_cons, elem_of_nil. tauto. Qed.

Lemma not_cands_cases (t : string) :
  t ∉ cands -> "photonic" <> t /\ "gpu" <> t /\ "cpu" <> t.
Proof. unfold cands. rewrite !not_elem_of_cons. intuition congruence. Qed.

Lemma tracked_init (eps canary : float) : tracked (init eps canary).
Proof.
  split.
  - intros t Ht. exists 0, 1%Z.
    apply cands_cases in Ht as [-> | [-> | ->]]; repeat split; reflexivity || lia.
  - intros t Ht. apply not_cands_cases in Ht as (H1 & H2 & H3).
    unfold init; cbn [mu n]. unfold cands. cbn [fmap list_fmap].
    rewrite !list_to_map_cons, list_to_map_nil. cbn [fst snd].
    rewrite lookup_fmap, !lookup_insert_ne, lookup_empty by assumption.
    split; reflexivity.
Qed.

(** On a tracked target [observe] returns, having added the reward and
    counted the call. *)
Lemma observe_tracked (self : t) (target : string) (actual : gmap string float)
  (m : float) (k : Z) :
  mu self !! target = Some m ->
  n self !! target = Some k ->
  observe self target actual
  = (Ok tt, {| eps := eps self; canary := canary self;
               mu := <[target := m + reward_formula actual]> (mu self);
               n := <[target := (k + 1)%Z]> (n self) |}).
Proof.
  intros Hm Hk. unfold observe, getitem.
  rewrite reward_defined, Hm. cbn [mu n eps canary]. now rewrite Hk.
Qed.

(** On a target the dicts do not hold, the first read raises and nothing
    has been written. *)
Lemma observe_untracked (self : t) (target : string) (actual : gmap string float) :
  mu self !! target = None ->
  observe self target actual = (Raise (KeyError target), self).
Proof.
  intros Hm. unfold observe, getitem. now rewrite reward_defined, Hm.
Qed.

Lemma tracked_observe (self : t) (target : string) (actual : gmap string float) :
  tracked self -> tracked (observe self target actual).2.
Proof.
  intros [Hin Hout].
  destruct (base.decide (target ∈ cands)) as [Ht | Ht].
  - destruct (Hin target Ht) as (m & k & Hm & Hk & Hge).
    rewrite (observe_tracked self target actual m k Hm Hk). cbn [snd].
    split; intros t' Ht'; cbn [mu n].
    + destruct (base.decide (target = t')) as [<- | Hne].
      * exists (m + reward_formula actual), (k + 1)%Z.
        rewrite !lookup_insert_eq. repeat split; lia.
      * rewrite !lookup_insert_ne by assumption. apply (Hin t' Ht').
    + assert (target <> t') by (intros ->; contradiction).
      rewrite !lookup_insert_ne by assumption. apply (Hout t' Ht').
  - destruct (Hout target Ht) as [Hm _].
    rewrite (observe_untracked self target actual Hm). now split.
Qed.

Lemma reachable_tracked (self : t) : reachable self -> tracked self.
Proof.
  induction 1 as [eps canary | self target actual _ IH].
  - apply tracked_init.
  - now apply tracked_observe.
Qed.

(** C7.  On a tracked target, [observe] adds to [mu[target]] exactly the
    reward 1/max(cost, 1e-4) - 0.5 max(0, lat_ms) of the outcome, adds one
    to [n[target]], and leaves the entries of every other target as they
    were. *)
Theorem observe_updates_target
  (self : t) (target : string) (actual : gmap string float) :
  reachable self ->
  target ∈ cands ->
  exists m k self',
    mu self !! target = Some m /\
    n self !! target = Some k /\
    observe self target actual = (Ok tt, self') /\
    mu self' !! target
    = Some (m + (1.0 / max2 (get actual "cost" 1e-4) 1e-4
                 - 0.5 * max2 0.0 (get actual "lat_ms" 0.0))) /\
    n self' !! target = Some (k + 1)%Z /\
    (forall other, other <> target ->
       mu self' !! other = mu self !! other /\
       n self' !! other = n self !! other).
Proof.
  intros Hreach Ht.
  destruct (reachable_tracked self Hreach) as [Hin _].
  destruct (Hin target Ht) as (m & k & Hm & Hk & _).
  eexists m, k, _. split; [exact Hm | split; [exact Hk|]].
  split; [apply (observe_tracked self target actual m k Hm Hk)|].
  cbn [mu n]. rewrite !lookup_insert_eq. repeat split.
  - now rewrite lookup_insert_ne by congruence.
  - now rewrite lookup_insert_ne by congruence.
Qed.

(** A fresh scheduler told the demo's outcome for gpu. *)
Lemma observe_updates_target_witness :
  reachable (init 0.2 0.05) /\
  "gpu" ∈ cands /\
  exists m k self',
    mu (init 0.2 0.05) !! "gpu" = Some m /\
    n (init 0.2 0.05) !! "gpu" = Some k /\
    observe (init 0.2 0.05) "gpu" demo_outcome = (Ok tt, self') /\
    mu self' !! "gpu"
    = Some (m + (1.0 / max2 (get demo_outcome "cost" 1e-4) 1e-4
                 - 0.5 * max2 0.0 (get demo_outcome "lat_ms" 0.0))) /\
    n self' !! "gpu" = Some (k + 1)%Z /\
    (forall other, other <> "gpu" ->
       mu self' !! other = mu (init 0.2 0.05) !! other /\
       n self' !! other = n (init 0.2 0.05) !! other).
Proof.
  assert (H1 : reachable (init 0.2 0.05)) by constructor.
  assert (H2 : "gpu" ∈ cands) by (unfold cands; rewrite !elem_of_cons; auto).
  split; [exact H1 | split; [exact H2|]].
  exact (observe_updates_target (init 0.2 0.05) "gpu" demo_outcome H1 H2).
Defined.

(** C8.  [observe] with a target outside photonic, gpu and cpu raises, and
    the scheduler is as it was: [mu] and [n] hold the same keys and
    values. *)
Theorem observe_unknown_target
  (self : t) (target : string) (actual : gmap string float) :
  reachable self ->
  (target ∉ cands) ->
  (observe self target actual).1 = Raise (KeyError target) /\
  mu (observe self target actual).2 = mu self /\
  n (observe self target actual).2 = n self.
Proof.
  intros Hreach Ht.
  destruct (reachable_tracked self Hreach) as [_ Hout].
  destruct (Hout target Ht) as [Hm _].
  rewrite (observe_untracked self target actual Hm). now repeat split.
Qed.

(** A fresh scheduler told about a target it does not track. *)
Lemma observe_unknown_target_witness :
  reachable (init 0.2 0.05) /\
  ("tpu" ∉ cands) /\
  (observe (init 0.2 0.05) "tpu" demo_outcome).1 = Raise (KeyError "tpu") /\
  mu (observe (init 0.2 0.05) "tpu" demo_outcome).2 = mu (init 0.2 0.05) /\
  n (observe (init 0.2 0.05) "tpu" demo_outcome).2 = n (init 0.2 0.05).
Proof.
  assert (H1 : reachable (init 0.2 0.05)) by constructor.
  assert (H2 : "tpu" ∉ cands) 
    by (unfold cands; rewrite !not_elem_of_cons;
        repeat split; try discriminate; apply not_elem_of_nil).
  split; [exact H1 | split; [exact H2|]].
  exact (observe_unknown_target (init 0.2 0.05) "tpu" demo_outcome H1 H2).
Defined.

Lemma int_to_float_raises (k : Z) (e : exn) :
  int_to_float k = Raise e -> e = OverflowError.
Proof.
  unfold int_to_float. destruct (binary_normalize prec emax k 0 false); congruence.
Qed.

(** C10.  In every state of the scheduler, as constructed or after any
    number of [observe] calls, each tracked target has a count of at least
    one, so the division [mu[t] / n[t]] of the exploit branch does not
    raise [ZeroDivisionError]. *)
Theorem count_at_least_one (self : t) (target : string) :
  reachable self ->
  target ∈ cands ->
  exists k,
    n self !! target = Some k /\
    (1 <= k)%Z /\
    forall m, truediv_int m k <> Raise ZeroDivisionError.
Proof.
  intros Hreach Ht.
  destruct (reachable_tracked self Hreach) as [Hin _].
  destruct (Hin target Ht) as (m & k & _ & Hk & Hge).
  exists k. split; [exact Hk | split; [exact Hge|]].
  intros a. unfold truediv_int.
  destruct (int_to_float k) as [b | e] eqn:Hb; cbn.
  - destruct (Z.eqb_spec k 0); [lia | discriminate].
  - apply int_to_float_raises in Hb as ->. discriminate.
Qed.

(** The count of gpu after one observation. *)
Lemma count_at_least_one_witness :
  reachable (observe (init 0.2 0.05) "gpu" demo_outcome).2 /\
  "gpu" ∈ cands /\
  exists k,
    n (observe (init 0.2 0.05) "gpu" demo_outcome).2 !! "gpu" = Some k /\
    (1 <= k)%Z /\
    forall m, truediv_int m k <> Raise ZeroDivisionError.
Proof.
  assert (H1 : reachable (observe (init 0.2 0.05) "gpu" demo_outcome).2)
    by (do 2 constructor).
  assert (H2 : "gpu" ∈ cands) by (unfold cands; rewrite !elem_of_cons; auto).
  split; [exact H1 | split; [exact H2|]].
  exact (count_at_least_one _ "gpu" H1 H2).
Defined.

(** *** [decide] *)

(** A draw in [0, 1) is not under an [eps] of zero. *)
Lemma draw_not_under_zero (u : float) : le 0 u = true -> lt u 0 = false.
Proof. apply le_not_gt. Qed.

Lemma choice_elem {A : Type} (k : nat) (seq : list A) :
  seq <> [] -> exists x, choice k seq = Ok x /\ x ∈ seq.
Proof.
  intros Hne. unfold choice.
  assert (Hlt : (k mod length seq < length seq)%nat).
  { apply Nat.mod_upper_bound. destruct seq; [congruence | cbn; lia]. }
  destruct (lookup_lt_is_Some_2 seq _ Hlt) as [x Hx].
  exists x. rewrite Hx. split; [reflexivity|].
  apply list_elem_of_lookup. eauto.
Qed.

Lemma getitem_Some {V : Type} (d : gmap string V) (key : string) (v : V) :
  d !! key = Some v -> getitem d key = Ok v.
Proof. unfold getitem. now intros ->. Qed.

Lemma truediv_int_defined (a : float) (k : Z) (b : float) :
  k <> 0%Z -> int_to_float k = Ok b -> truediv_int a k = Ok (a / b).
Proof.
  intros Hk Hb. unfold truediv_int. rewrite Hb. cbn.
  now destruct (Z.eqb_spec k 0).
Qed.

Section Decide.

Variable libm_pow : float -> float -> float.
Variable context : gmap string float.

Lemma safe_of_filter (slo : SLO) (all : list (string * Estimate)) :
  safe_of slo (map (fun c => (c.1, RealEst c.2)) all)
  = Ok (List.filter (safe slo) all).
Proof.
  induction all as [|[t e] all IH]; cbn; [reflexivity|].
  rewrite IH. reflexivity.
Qed.

(** What [ConstrainedEpsilonGreedy.decide] computes once the estimates are
    known to be real: it chooses among the safe candidates, or among all of
    them. *)
Lemma greedy_decide_eq (self : t) (slo : SLO) (u : float) (k : nat)
  (all : list (string * Estimate)) :
  real_estimates libm_pow context = Ok all ->
  decide libm_pow self slo context u k
  = ('(t, est, mode) ←
       (if lt u (eps self) then
          '(t, est) ← choice k (safe_or_all slo all); Ok (t, est, "explore"%string)
        else
          vs ← vals self slo (safe_or_all slo all);
          '(t, est, _) ← max_by snd vs; Ok (t, est, "exploit"%string));
     Ok (t, {| target := t; expected := est; mode := mode;
               canary_fraction := canary self |})).
Proof.
  intros Hall. unfold decide, estimates.
  rewrite (mapM_real_raw libm_pow context cands all Hall). cbn [mbind result_bind].
  rewrite safe_of_filter. cbn [mbind result_bind].
  unfold safe_or_all. destruct (List.filter (safe slo) all) eqn:E; [|reflexivity].
  rewrite comparable_all. reflexivity.
Qed.

(** The values of the exploit branch are defined for candidates whose
    penalty is not zero and whose dict entries are there, the count neither
    zero nor too large for a float. *)
Lemma vals_defined (self : t) (slo : SLO) (cs : list (string * Estimate)) :
  Forall (fun c => feq (penalty c.2 slo) 0 = false) cs ->
  Forall (fun c => exists m cnt cf,
            mu self !! c.1 = Some m /\ n self !! c.1 = Some cnt /\
            cnt <> 0%Z /\ int_to_float cnt = Ok cf) cs ->
  exists vs, vals self slo cs = Ok vs /\ Forall2 (exploit_value self slo) cs vs.
Proof.
  unfold vals.
  induction cs as [|[t e] cs IH]; intros Hpen Hst.
  - exists []. split; [reflexivity | constructor].
  - apply Forall_cons in Hpen as [Hp Hpen]. apply Forall_cons in Hst as [Hs Hst].
    destruct (IH Hpen Hst) as (vs & Hvs & Hall).
    destruct Hs as (m & cnt & cf & Hm & Hn & Hnz & Hcf). cbn in Hp, Hm, Hn.
    exists ((t, e, 1.0 / penalty e slo + m / cf) :: vs). split.
    + cbn [mapM]. rewrite (score_defined _ _ Hp). cbn [mbind result_bind].
      rewrite (getitem_Some _ _ _ Hm). cbn [mbind result_bind].
      rewrite (getitem_Some _ _ _ Hn). cbn [mbind result_bind].
      rewrite (truediv_int_defined m cnt cf Hnz Hcf). cbn [mbind result_bind].
      rewrite Hvs. reflexivity.
    + constructor; [|exact Hall].
      exists (1.0 / penalty e slo), m, cnt, cf. cbn.
      repeat split; try assumption. now apply score_defined.
Qed.

End Decide.

(** C9 (amended).  For every draw [u] in [0, 1), under a context whose three
    estimates are real numbers: with [eps = 0] the scheduler takes the exploit
    branch, and, where no candidate chosen from has a zero penalty and every
    count converts to a float, returns with mode exploit a first maximum of
    score + mu/n over the safe candidates (all three when none is safe); with
    [eps = 1] it takes the explore branch and returns with mode explore one
    of those candidates. *)
Theorem greedy_decide_branches
  (libm_pow : float -> float -> float) (self : t) (slo : SLO)
  (context : gmap string float) (u : float) (k : nat)
  (all : list (string * Estimate)) :
  real_estimates libm_pow context = Ok all ->
  le 0 u = true ->
  lt u 1 = true ->
  (eps self = 0 ->
   reachable self ->
   Forall (fun c => feq (penalty c.2 slo) 0 = false) (safe_or_all slo all) ->
   Forall (fun t => exists cnt cf,
             n self !! t = Some cnt /\ int_to_float cnt = Ok cf) cands ->
   exists t e v vs,
     decide libm_pow self slo context u k
     = Ok (t, {| target := t; expected := e; mode := "exploit";
                 canary_fraction := canary self |}) /\
     Forall2 (exploit_value self slo) (safe_or_all slo all) vs /\
     first_max snd (t, e, v) vs) /\
  (eps self = 1 ->
   exists t e,
     decide libm_pow self slo context u k
     = Ok (t, {| target := t; expected := e; mode := "explore";
                 canary_fraction := canary self |}) /\
     (t, e) ∈ safe_or_all slo all).
Proof.
  intros Hall Hu0 Hu1.
  rewrite (greedy_decide_eq libm_pow context self slo u k all Hall).
  pose proof (safe_or_all_nonempty slo all
                (real_estimates_nonempty libm_pow context all Hall)) as Hne.
  split.
  - intros -> Hreach Hpen Hcnt.
    rewrite (draw_not_under_zero u Hu0).
    destruct (reachable_tracked self Hreach) as [Hin _].
    destruct (vals_defined self slo (safe_or_all slo all) Hpen) as (vs & -> & Hvs).
    { rewrite Forall_forall. intros c Hc.
      pose proof (safe_or_all_cands libm_pow context slo all c Hall Hc) as Ht.
      destruct (Hin _ Ht) as (m & cnt & Hm & Hn & Hge).
      rewrite Forall_forall in Hcnt.
      destruct (Hcnt _ Ht) as (cnt' & cf & Hn' & Hcf).
      assert (cnt' = cnt) as -> by congruence.
      exists m, cnt, cf. repeat split; try assumption. lia. }
    cbn [mbind result_bind].
    destruct (max_by_first_max snd vs) as ([[t e] v] & -> & Hmax).
    { intros ->. apply Forall2_nil_inv_r in Hvs. contradiction. }
    exists t, e, v, vs. cbn. auto.
  - intros ->. rewrite Hu1.
    destruct (choice_elem k (safe_or_all slo all) Hne) as ([t e] & -> & Hin).
    exists t, e. cbn. auto.
Qed.

(** A fresh scheduler under the demo's SLO and the default context, with
    the draw 0.5: exploiting with [eps = 0], exploring with [eps = 1]. *)
Lemma greedy_decide_branches_witness :
  real_estimates libm_unreached ∅ = Ok default_estimates /\
  le 0 0.5 = true /\
  lt 0.5 1 = true /\
  (exists t e v vs,
     decide libm_unreached (init 0 0.05) demo_slo ∅ 0.5 0
     = Ok (t, {| target := t; expected := e; mode := "exploit";
                 canary_fraction := 0.05 |}) /\
     Forall2 (exploit_value (init 0 0.05) demo_slo)
             (safe_or_all demo_slo default_estimates) vs /\
     first_max snd (t, e, v) vs) /\
  (exists t e,
     decide libm_unreached (init 1 0.05) demo_slo ∅ 0.5 0
     = Ok (t, {| target := t; expected := e; mode := "explore";
                 canary_fraction := 0.05 |}) /\
     (t, e) ∈ safe_or_all demo_slo default_estimates).
Proof.
  assert (H1 : real_estimates libm_unreached ∅ = Ok default_estimates)
    by (vm_compute; reflexivity).
  assert (H2 : Forall (fun c => feq (penalty c.2 demo_slo) 0 = false)
                 (safe_or_all demo_slo default_estimates))
    by (repeat constructor).
  assert (H3 : forall eps, Forall (fun t => exists cnt cf,
                  n (init eps 0.05) !! t = Some cnt /\ int_to_float cnt = Ok cf) cands)
    by (intros eps; repeat constructor; exists 1%Z, 1; split; reflexivity).
  split; [exact H1 | split; [reflexivity | split; [reflexivity|]]].
  split.
  - apply (greedy_decide_branches libm_unreached (init 0 0.05) demo_slo ∅ 0.5 0
             default_estimates H1 eq_refl eq_refl);
      [reflexivity | constructor | exact H2 | exact (H3 0)].
  - apply (greedy_decide_branches libm_unreached (init 1 0.05) demo_slo ∅ 0.5 0
             default_estimates H1 eq_refl eq_refl). reflexivity.
Defined.

(** C9 as stated fails: with [eps = 0] under an SLO that bounds nothing, the
    exploit branch raises instead of returning a choice. *)
Lemma greedy_decide_raises :
  decide libm_unreached (init 0 0.05) unbounded_slo ∅ 0.5 0
  = Raise ZeroDivisionError.
Proof. vm_compute. reflexivity. Qed.

End GreedyFacts.

(** ** intent_control_plane_mvp.py: the planner and the engine *)

Module EngineFacts.
Import Py ControlPlane Spec Inputs PyFacts.

#[local] Open Scope list_scope.

(** *** The verification scan *)

(** With no loss above the bound the scan leaves [ok] and [msg] alone. *)
Lemma scan_losses_clean (policy : Policy) (items : LinkMap) (ok : bool) (msg : string) :
  Forall (fun item => gt item.2 policy.(max_packet_loss) = false) items ->
  scan_losses policy items ok msg = (ok, msg).
Proof.
  induction 1 as [|[key loss] items Hloss _ IH]; cbn [scan_losses]; [reflexivity|].
  cbn [snd] in Hloss. now rewrite Hloss.
Qed.

(** The scan stops at the first loss above the bound and reports it. *)
Lemma scan_losses_first (policy : Policy) (pre post : LinkMap)
  (key : string * string) (loss : float) (ok : bool) (msg : string) :
  Forall (fun item => gt item.2 policy.(max_packet_loss) = false) pre ->
  gt loss policy.(max_packet_loss) = true ->
  scan_losses policy (pre ++ (key, loss) :: post) ok msg
  = (false, ("verification_failed: loss " ++ format_3f loss ++ " > "
             ++ format_3f policy.(max_packet_loss))%string).
Proof.
  intros Hpre Hloss.
  induction Hpre as [|[key' loss'] pre Hl _ IH]; cbn [scan_losses app].
  - now rewrite Hloss.
  - cbn [snd] in Hl. now rewrite Hl.
Qed.

(** A list with a loss above the bound splits at the first such loss. *)
Lemma first_above (policy : Policy) (items : LinkMap) :
  Exists (fun item => gt item.2 policy.(max_packet_loss) = true) items ->
  exists pre key loss post,
    items = pre ++ (key, loss) :: post /\
    Forall (fun item => gt item.2 policy.(max_packet_loss) = false) pre /\
    gt loss policy.(max_packet_loss) = true.
Proof.
  induction items as [|[key loss] items IH]; intros Hex.
  - now apply Exists_nil in Hex.
  - destruct (gt loss policy.(max_packet_loss)) eqn:Hloss.
    + exists [], key, loss, items. repeat split; [constructor | exact Hloss].
    + apply Exists_cons in Hex as [Hhere | Hlater]; [cbn [snd] in Hhere; congruence|].
      destruct (IH Hlater) as (pre & key' & loss' & post & -> & Hpre & Hgt).
      exists ((key, loss) :: pre), key', loss', post.
      repeat split; [constructor; assumption | exact Hgt].
Qed.

Section Engine.

Variable float_of_str : string -> result float.
Context {T X : Type} `{!TelemetryProvider T} `{!ExecutorAdapter X}.

(** *** The planner *)

Lemma plan_unsupported (topo : Topology) (snap : ResourceSnapshot)
  (intent : Intent) (pol : Policy) (w : World) :
  intent.(kind) <> "bandwidth" ->
  plan float_of_str topo snap intent pol w
  = (Raise (ValueError ("Unsupported intent kind: " ++ intent.(kind))%string), w).
Proof.
  intros Hkind. unfold plan.
  destruct (String.eqb_spec intent.(kind) "bandwidth"); [contradiction | reflexivity].
Qed.

Lemma plan_bandwidth (topo : Topology) (snap : ResourceSnapshot)
  (intent : Intent) (pol : Policy) (w : World)
  (source destination bandwidth : pyval) (bw : float) :
  intent.(kind) = "bandwidth" ->
  intent.(payload) !! "source" = Some source ->
  intent.(payload) !! "destination" = Some destination ->
  intent.(payload) !! "bandwidth_gbps" = Some bandwidth ->
  to_float float_of_str bandwidth = Ok bw ->
  plan float_of_str topo snap intent pol w
  = (Ok {| plan_id := (uuid4 w).1;
           plan_intent_id := intent.(intent_id);
           plan_created_at := (time_time (uuid4 w).2).1;
           actions := [allocate_flow source destination
                         (get intent.(payload) "max_latency_ms" VNone) bw pol];
           expected_impact :=
             <["goal" := VStr "satisfy_bandwidth_intent"]>
             (<["notes" := VStr "MVP stub planner emits allocate_flow action."]> ∅) |},
     (time_time (uuid4 w).2).2).
Proof.
  intros Hkind Hsrc Hdst Hbw Hfloat. unfold plan, getitem.
  rewrite Hkind, Hsrc, Hdst, Hbw. cbn. rewrite Hfloat. reflexivity.
Qed.

(** *** The engine *)

(** A submission whose plan is made and applied runs to the end: one
    result, one audit entry. *)
Lemma submit_intent_applied (self : Engine T X) (intent : Intent) (w : World)
  (before after : ResourceSnapshot) (tel1 tel2 : T) (ex' : X) (p : Plan)
  (w1 w2 w3 w4 : World) :
  snapshot self.(telemetry) w = (before, tel1, w1) ->
  plan float_of_str self.(topology) before intent self.(policy) w1 = (Ok p, w2) ->
  apply self.(executor) p.(actions) w2 = (Ok tt, ex', w3) ->
  snapshot tel1 w3 = (after, tel2, w4) ->
  submit_intent float_of_str self intent w
  = (Ok {| result_plan_id := p.(plan_id);
           ok := (verify self.(policy) after).1;
           applied_actions := p.(actions);
           before := before; after := after;
           message := (verify self.(policy) after).2 |},
     {| topology := self.(topology); telemetry := tel2; executor := ex';
        policy := self.(policy);
        audit_log :=
          self.(audit_log) ++
          [ {| audit_intent_id := intent.(intent_id);
               audit_plan_id := p.(plan_id);
               audit_ok := (verify self.(policy) after).1;
               audit_message := (verify self.(policy) after).2;
               audit_ts := (time_time w4).1 |} ] |},
     (time_time w4).2).
Proof.
  intros Hbefore Hplan Happly Hafter. unfold submit_intent.
  rewrite Hbefore. cbn [with_telemetry topology policy executor telemetry].
  rewrite Hplan, Happly.
  cbn [with_executor with_telemetry topology policy executor telemetry audit_log].
  rewrite Hafter.
  cbn [with_executor with_telemetry audit_append topology policy executor
       telemetry audit_log].
  destruct (verify (policy self) after) as [ok msg].
  destruct (time_time w4) as [ts w5]. reflexivity.
Qed.

(** C1 (amended).  If [Executor.apply] raises, [submit_intent] lets the
    exception through to the caller: it returns no [ExecutionResult], takes
    no after-snapshot and appends no audit entry. *)
Theorem submit_intent_apply_raises (self : Engine T X) (intent : Intent)
  (w : World) (before : ResourceSnapshot) (tel1 : T) (ex' : X) (p : Plan)
  (w1 w2 w3 : World) (e : exn) :
  snapshot self.(telemetry) w = (before, tel1, w1) ->
  plan float_of_str self.(topology) before intent self.(policy) w1 = (Ok p, w2) ->
  apply self.(executor) p.(actions) w2 = (Raise e, ex', w3) ->
  exists self',
    submit_intent float_of_str self intent w = (Raise e, self', w3) /\
    self'.(audit_log) = self.(audit_log) /\
    self'.(telemetry) = tel1.
Proof.
  intros Hbefore Hplan Happly. unfold submit_intent.
  rewrite Hbefore. cbn [with_telemetry topology policy executor telemetry].
  rewrite Hplan, Happly. eexists. split; [reflexivity|]. split; reflexivity.
Qed.

(** C3.  When the plan is made and applied: with verification required and
    some loss of the after-snapshot above [max_packet_loss], the result has
    [ok = false] and a message that names the first such loss (in the order
    of the snapshot's entries) and the bound; with no loss above the bound
    the result has [ok = true] and the message "applied". *)
Theorem submit_intent_verifies (self : Engine T X) (intent : Intent) (w : World)
  (before after : ResourceSnapshot) (tel1 tel2 : T) (ex' : X) (p : Plan)
  (w1 w2 w3 w4 : World) :
  snapshot self.(telemetry) w = (before, tel1, w1) ->
  plan float_of_str self.(topology) before intent self.(policy) w1 = (Ok p, w2) ->
  apply self.(executor) p.(actions) w2 = (Ok tt, ex', w3) ->
  snapshot tel1 w3 = (after, tel2, w4) ->
  exists r self' w',
    submit_intent float_of_str self intent w = (Ok r, self', w') /\
    r.(ControlPlane.after) = after /\
    (self.(policy).(require_verification) = true ->
     Exists (fun item => gt item.2 self.(policy).(max_packet_loss) = true)
            after.(link_loss) ->
     r.(ok) = false /\
     exists pre key loss post,
       after.(link_loss) = pre ++ (key, loss) :: post /\
       Forall (fun item => gt item.2 self.(policy).(max_packet_loss) = false) pre /\
       gt loss self.(policy).(max_packet_loss) = true /\
       r.(message)
       = ("verification_failed: loss " ++ format_3f loss ++ " > "
          ++ format_3f self.(policy).(max_packet_loss))%string) /\
    (Forall (fun item => gt item.2 self.(policy).(max_packet_loss) = false)
            after.(link_loss) ->
     r.(ok) = true /\ r.(message) = "applied").
Proof.
  intros Hbefore Hplan Happly Hafter.
  do 3 eexists. split;
    [apply (submit_intent_applied self intent w before after tel1 tel2 ex' p
              w1 w2 w3 w4 Hbefore Hplan Happly Hafter)|].
  cbn [ok message ControlPlane.after]. split; [reflexivity|]. unfold verify. split.
  - intros -> Hex.
    destruct (first_above _ _ Hex) as (pre & key & loss & post & Heq & Hpre & Hloss).
    rewrite Heq, (scan_losses_first _ pre post key loss true "applied" Hpre Hloss).
    split; [reflexivity|]. exists pre, key, loss, post. auto.
  - intros Hclean. destruct (require_verification (policy self)); [|now split].
    now rewrite (scan_losses_clean _ _ true "applied" Hclean).
Qed.

(** C5.  For an intent whose kind is not "bandwidth" the planner raises an
    error that carries the kind, and [submit_intent] makes no plan: the error
    leaves through it, the audit log and the executor are as they were, and
    the world has seen the telemetry read only. *)
Theorem submit_intent_unsupported (self : Engine T X) (intent : Intent) (w : World) :
  intent.(kind) <> "bandwidth" ->
  (forall topo snap pol w1,
     plan float_of_str topo snap intent pol w1
     = (Raise (ValueError ("Unsupported intent kind: " ++ intent.(kind))%string), w1)) /\
  exists self',
    submit_intent float_of_str self intent w
    = (Raise (ValueError ("Unsupported intent kind: " ++ intent.(kind))%string),
       self', (snapshot self.(telemetry) w).2) /\
    self'.(audit_log) = self.(audit_log) /\
    self'.(executor) = self.(executor).
Proof.
  intros Hkind. split.
  - intros topo snap pol w1. now apply plan_unsupported.
  - unfold submit_intent.
    destruct (snapshot (telemetry self) w) as [[before tel1] w1].
    cbn [with_telemetry topology policy executor telemetry snd].
    rewrite (plan_unsupported _ _ _ _ _ Hkind).
    eexists. split; [reflexivity|]. split; reflexivity.
Qed.

(** C2.  For an intent of kind "bandwidth" whose payload holds a source, a
    destination and a bandwidth that [float()] accepts, and whose apply step
    succeeds, [submit_intent] returns one [ExecutionResult] and appends one
    entry to the audit log; the plan holds one action, whose parameters
    restate the intent's source, destination, bandwidth and latency bound
    and the policy's two thresholds. *)
Theorem submit_intent_bandwidth (self : Engine T X) (intent : Intent) (w : World)
  (before : ResourceSnapshot) (tel1 : T) (w1 : World)
  (source destination bandwidth : pyval) (bw : float) (ex' : X) (w3 : World) :
  snapshot self.(telemetry) w = (before, tel1, w1) ->
  intent.(kind) = "bandwidth" ->
  intent.(payload) !! "source" = Some source ->
  intent.(payload) !! "destination" = Some destination ->
  intent.(payload) !! "bandwidth_gbps" = Some bandwidth ->
  to_float float_of_str bandwidth = Ok bw ->
  (forall p w2,
     plan float_of_str self.(topology) before intent self.(policy) w1 = (Ok p, w2) ->
     apply self.(executor) p.(actions) w2 = (Ok tt, ex', w3)) ->
  exists p w2 a r entry self' w',
    plan float_of_str self.(topology) before intent self.(policy) w1 = (Ok p, w2) /\
    p.(actions) = [a] /\
    a.(action_type) = "allocate_flow" /\
    a.(params) !! "source" = Some source /\
    a.(params) !! "destination" = Some destination /\
    a.(params) !! "bandwidth_gbps" = Some (VFloat bw) /\
    a.(params) !! "max_latency_ms"
    = Some (get intent.(payload) "max_latency_ms" VNone) /\
    a.(params) !! "policy_max_util"
    = Some (VFloat self.(policy).(max_link_utilization)) /\
    a.(params) !! "policy_max_loss"
    = Some (VFloat self.(policy).(max_packet_loss)) /\
    submit_intent float_of_str self intent w = (Ok r, self', w') /\
    r.(result_plan_id) = p.(plan_id) /\
    r.(applied_actions) = [a] /\
    self'.(audit_log) = self.(audit_log) ++ [entry] /\
    entry.(audit_intent_id) = intent.(intent_id) /\
    entry.(audit_plan_id) = p.(plan_id) /\
    entry.(audit_ok) = r.(ok) /\
    entry.(audit_message) = r.(message).
Proof.
  intros Hbefore Hkind Hsrc Hdst Hbw Hfloat Happly.
  pose proof (plan_bandwidth (topology self) before intent (policy self) w1
                source destination bandwidth bw Hkind Hsrc Hdst Hbw Hfloat) as Hplan.
  specialize (Happly _ _ Hplan).
  destruct (snapshot tel1 w3) as [[after tel2] w4] eqn:Hafter.
  do 7 eexists. split; [exact Hplan|].
  split; [reflexivity|]. split; [reflexivity|].
  do 6 (split; [reflexivity|]).
  split; [apply (submit_intent_applied self intent w before after tel1 tel2 ex' _
                   w1 _ w3 w4 Hbefore Hplan Happly Hafter)|].
  repeat split; reflexivity.
Qed.

End Engine.

(** *** The module's example *)

Lemma example_planned :
  plan text_unreached example_topology first_read.1.1 example_intent
       example_policy first_read.2
  = (Ok example_plan, world_planned).
Proof. vm_compute. reflexivity. Qed.

(** The example's executor is replaced by one that raises: the hypotheses
    of the amended C1 hold and the exception leaves [submit_intent]. *)
Lemma submit_intent_apply_raises_witness :
  snapshot failing_engine.(telemetry) world1 = first_read /\
  plan text_unreached failing_engine.(topology) first_read.1.1 example_intent
       failing_engine.(policy) first_read.2
  = (Ok example_plan, world_planned) /\
  apply failing_engine.(executor) example_plan.(actions) world_planned
  = (Raise (OtherError "link down"), failing_engine.(executor), world_planned) /\
  exists self',
    submit_intent text_unreached failing_engine example_intent world1
    = (Raise (OtherError "link down"), self', world_planned) /\
    self'.(audit_log) = failing_engine.(audit_log) /\
    self'.(telemetry) = first_read.1.2.
Proof.
  assert (H1 : snapshot failing_engine.(telemetry) world1
               = (first_read.1.1, first_read.1.2, first_read.2)) by reflexivity.
  pose proof example_planned as H2.
  assert (H3 : apply failing_engine.(executor) example_plan.(actions) world_planned
               = (Raise (OtherError "link down"), failing_engine.(executor),
                  world_planned)) by reflexivity.
  split; [reflexivity | split; [exact H2 | split; [exact H3|]]].
  exact (submit_intent_apply_raises text_unreached failing_engine example_intent
           world1 _ _ _ example_plan _ _ _ _ H1 H2 H3).
Defined.

(** C1 as stated fails: when the executor raises, the caller gets the
    exception, and the audit log has no entry for the cycle. *)
Lemma submit_intent_propagates :
  (submit_intent text_unreached failing_engine example_intent world1).1.1
  = Raise (OtherError "link down") /\
  (submit_intent text_unreached failing_engine example_intent world1).1.2.(audit_log)
  = [].
Proof. vm_compute. split; reflexivity. Qed.

Lemma example_applied :
  forall p w2,
    plan text_unreached example_engine.(topology) first_read.1.1 example_intent
         example_engine.(policy) first_read.2 = (Ok p, w2) ->
    apply example_engine.(executor) p.(actions) w2
    = (Ok tt, SimExecutor_object, world_applied).
Proof.
  intros p w2 Hplan.
  change (plan _ _ _ _ _ _) with
    (plan text_unreached example_topology first_read.1.1 example_intent
          example_policy first_read.2) in Hplan.
  rewrite example_planned in Hplan. injection Hplan as <- <-. reflexivity.
Qed.

(** The module's example: a bandwidth intent from A to C, applied by the
    simulated executor. *)
Lemma submit_intent_bandwidth_witness :
  snapshot example_engine.(telemetry) world1 = first_read /\
  example_intent.(kind) = "bandwidth" /\
  example_intent.(payload) !! "source" = Some (VStr "A") /\
  example_intent.(payload) !! "destination" = Some (VStr "C") /\
  example_intent.(payload) !! "bandwidth_gbps" = Some (VInt 50) /\
  to_float text_unreached (VInt 50) = Ok 50%float /\
  exists a r entry self' w',
    a.(params) !! "bandwidth_gbps" = Some (VFloat 50) /\
    a.(params) !! "max_latency_ms" = Some (VInt 25) /\
    a.(params) !! "policy_max_loss" = Some (VFloat 0.02) /\
    submit_intent text_unreached example_engine example_intent world1
    = (Ok r, self', w') /\
    r.(applied_actions) = [a] /\
    self'.(audit_log) = [entry] /\
    entry.(audit_intent_id) = "uuid-0".
Proof.
  assert (H1 : snapshot example_engine.(telemetry) world1
               = (first_read.1.1, first_read.1.2, first_read.2)) by reflexivity.
  do 5 (split; [reflexivity|]). split; [vm_compute; reflexivity|].
  destruct (submit_intent_bandwidth text_unreached example_engine example_intent
              world1 _ _ _ (VStr "A") (VStr "C") (VInt 50) 50%float
              SimExecutor_object world_applied H1 eq_refl eq_refl eq_refl eq_refl
              eq_refl example_applied)
    as (p & w2 & a & r & entry & self' & w' & _ & _ & _ & _ & _ & Hbw & Hlat & _
        & Hloss & Hsub & _ & Hacts & Hlog & Hid & _).
  exists a, r, entry, self', w'. repeat split; assumption.
Defined.

(** The module's example: the loss 0.030 on the link from A to C is above
    the bound 0.020. *)
Lemma submit_intent_verifies_witness :
  snapshot example_engine.(telemetry) world1 = first_read /\
  plan text_unreached example_engine.(topology) first_read.1.1 example_intent
       example_engine.(policy) first_read.2
  = (Ok example_plan, world_planned) /\
  apply example_engine.(executor) example_plan.(actions) world_planned
  = (Ok tt, SimExecutor_object, world_applied) /\
  exists r self' w',
    submit_intent text_unreached example_engine example_intent world1
    = (Ok r, self', w') /\
    r.(ok) = false.
Proof.
  assert (H1 : snapshot example_engine.(telemetry) world1
               = (first_read.1.1, first_read.1.2, first_read.2)) by reflexivity.
  pose proof example_planned as H2.
  assert (H3 : apply example_engine.(executor) example_plan.(actions) world_planned
               = (Ok tt, SimExecutor_object, world_applied)) by reflexivity.
  assert (H4 : snapshot first_read.1.2 world_applied
               = ((snapshot first_read.1.2 world_applied).1.1,
                  (snapshot first_read.1.2 world_applied).1.2,
                  (snapshot first_read.1.2 world_applied).2)) by reflexivity.
  split; [reflexivity | split; [exact H2 | split; [exact H3|]]].
  destruct (submit_intent_verifies text_unreached example_engine example_intent
              world1 _ _ _ _ _ example_plan _ _ _ _ H1 H2 H3 H4)
    as (r & self' & w' & Hsub & _ & Hfail & _).
  exists r, self', w'. split; [exact Hsub|].
  apply Hfail; [reflexivity|].
  do 2 apply Exists_cons_tl. apply Exists_cons_hd. reflexivity.
Defined.

(** The message of the module's example, as the run prints it. *)
Example example_message :
  (submit_intent text_unreached example_engine example_intent world1).1.1
  = Ok {| result_plan_id := "uuid-1"; ok := false;
          applied_actions := example_plan.(actions);
          before := first_read.1.1;
          after := (snapshot first_read.1.2 world_applied).1.1;
          message := "verification_failed: loss 0.030 > 0.020" |}.
Proof. vm_compute. reflexivity. Qed.

(** An intent of kind "latency": the planner refuses it and nothing is
    audited. *)
Lemma submit_intent_unsupported_witness :
  latency_intent.(kind) <> "bandwidth" /\
  exists self',
    submit_intent text_unreached example_engine latency_intent world1
    = (Raise (ValueError "Unsupported intent kind: latency"), self',
       (snapshot example_engine.(telemetry) world1).2) /\
    self'.(audit_log) = [] /\
    self'.(executor) = SimExecutor_object.
Proof.
  assert (H1 : latency_intent.(kind) <> "bandwidth") by discriminate.
  split; [exact H1|].
  exact (proj2 (submit_intent_unsupported text_unreached example_engine
                  latency_intent world1 H1)).
Defined.

End EngineFacts.

(** ** intent_control_plane_mvp.py: the topology *)

Module TopologyFacts.
Import Py ControlPlane Inputs.

#[local] Open Scope list_scope.

(** A link touches [node] and leads to [other], in either direction. *)
Definition joins (l : Link) (node other : string) : Prop :=
  (l.(src) = node /\ l.(dst) = other) \/ (l.(dst) = node /\ l.(src) = other).

Lemma append_if_elem (c : bool) (out : list string) (y x : string) :
  x ∈ (if c then out ++ [y] else out) <-> x ∈ out \/ (c = true /\ y = x).
Proof.
  destruct c.
  - rewrite elem_of_app, list_elem_of_singleton.
    split; [intros [H | ->]; auto | intros [H | [_ ->]]; auto].
  - split; [auto | intros [H | [H _]]; [exact H | discriminate]].
Qed.

Lemma neighbors_loop_elem (links : list Link) (node : string)
  (out : list string) (x : string) :
  x ∈ neighbors_loop links node out <->
  x ∈ out \/ exists l, l ∈ links /\ joins l node x.
Proof.
  revert out. induction links as [|l rest IH]; intros out; cbn [neighbors_loop].
  - split; [auto | intros [H | (l & Hl & _)]; [exact H | now apply elem_of_nil in Hl]].
  - rewrite IH, !append_if_elem, !String.eqb_eq. unfold joins. split.
    + intros [[[H | H] | H] | (l' & Hl' & Hj)]; [now left | | |].
      * right. exists l. split; [left | tauto].
      * right. exists l. split; [left | tauto].
      * right. exists l'. split; [now right | exact Hj].
    + intros [H | (l' & Hl' & Hj)]; [now do 3 left|].
      apply elem_of_cons in Hl' as [-> | Hl'].
      * destruct Hj as [Hj | Hj]; [left; left; right | left; right]; exact Hj.
      * right. exists l'. split; assumption.
Qed.

(** X1.  [neighbors(node)] holds exactly the other ends of the links that
    touch [node], whichever way a link is declared. *)
Theorem neighbors_elem (self : Topology) (node x : string) :
  x ∈ neighbors self node <-> exists l, l ∈ self.(links) /\ joins l node x.
Proof.
  unfold neighbors.
  rewrite merge_sort_Permutation, elem_of_elements, elem_of_list_to_set,
    neighbors_loop_elem.
  split; [intros [H | H]; [now apply elem_of_nil in H | exact H] | auto].
Qed.

(** X2.  Being a neighbour is symmetric. *)
Theorem neighbors_symmetric (self : Topology) (a b : string) :
  b ∈ neighbors self a <-> a ∈ neighbors self b.
Proof.
  unfold neighbors.
  rewrite !merge_sort_Permutation, !elem_of_elements, !elem_of_list_to_set,
    !neighbors_loop_elem.
  unfold joins.
  split; (intros [H | (l & Hl & H)]; [now apply elem_of_nil in H|]);
    right; exists l; (split; [exact Hl | tauto]).
Qed.

Lemma le_neq_ltb (a b : string) : String.le a b -> a <> b -> String.ltb a b = true.
Proof.
  unfold String.le, String.leb, String.ltb. intros Hle Hne.
  destruct (String.compare a b) eqn:E; try reflexivity.
  - now apply String.compare_eq_iff in E.
  - now cbn in Hle.
Qed.

Lemma StronglySorted_strict (l : list string) :
  StronglySorted String.le l -> NoDup l ->
  StronglySorted (fun a b => String.ltb a b = true) l.
Proof.
  induction 1 as [|x l Hs IH Hall]; intros Hnd; constructor.
  - apply IH. now apply NoDup_cons in Hnd.
  - apply NoDup_cons in Hnd as [Hx _].
    rewrite Forall_forall in Hall |- *. intros y Hy.
    apply le_neq_ltb; [now apply Hall | intros ->; contradiction].
Qed.

(** X3.  [neighbors(node)] is strictly increasing in the order of [str]:
    sorted, and no name twice, also when several links lead to the same
    node. *)
Theorem neighbors_sorted (self : Topology) (node : string) :
  StronglySorted (fun a b => String.ltb a b = true) (neighbors self node).
Proof.
  unfold neighbors. apply StronglySorted_strict.
  - apply (StronglySorted_merge_sort String.le).
  - rewrite merge_sort_Permutation. apply NoDup_elements.
Qed.

End TopologyFacts.

(** ** intent_control_plane_mvp.py: calls in sequence *)

Module Sequences.
Import Py ControlPlane.

Section Engine.

Variable float_of_str : string -> result float.
Context {T X : Type} `{!TelemetryProvider T} `{!ExecutorAdapter X}.


End Engine.


End Sequences.

(** ** intent_control_plane_mvp.py: more on the planner and the engine *)

Module ControlFacts.
Import Py ControlPlane Spec Inputs PyFacts EngineFacts Sequences.

#[local] Open Scope list_scope.

(** *** Comparisons with a NaN *)

Lemma SFeqb_refl_not_nan (x : spec_float) : SFeqb x x = false -> x = S754_nan.
Proof.
  unfold SFeqb. destruct x as [s|s| |s m e]; try reflexivity;
    destruct s; cbn; try discriminate;
    rewrite Z.compare_refl; change (Pos.compare_cont Eq m m) with (Pos.compare m m);
    rewrite Pos.compare_refl; discriminate.
Qed.

Lemma is_nan_spec (x : float) : is_nan x = true -> Prim2SF x = S754_nan.
Proof.
  unfold is_nan. rewrite FloatAxioms.eqb_spec. intros H.
  apply SFeqb_refl_not_nan. now destruct (SFeqb _ _).
Qed.

(** Nothing is above a NaN, and a NaN is above nothing. *)
Lemma gt_nan_r (a b : float) : is_nan b = true -> gt a b = false.
Proof.
  intros H. unfold gt. rewrite FloatAxioms.ltb_spec, (is_nan_spec b H). reflexivity.
Qed.

Lemma gt_nan_l (a b : float) : is_nan a = true -> gt a b = false.
Proof.
  intros H. unfold gt. rewrite FloatAxioms.ltb_spec, (is_nan_spec a H).
  unfold SFltb. now destruct (Prim2SF b).
Qed.

Lemma SFltb_trans (x y z : spec_float) :
  SFltb x y = true -> SFltb y z = true -> SFltb x z = true.
Proof.
  unfold SFltb.
  destruct x as [sx|sx| |sx mx ex], y as [sy|sy| |sy my ey], z as [sz|sz| |sz mz ez];
    by_classes.
Qed.

Lemma lt_trans (a b c : float) : lt a b = true -> lt b c = true -> lt a c = true.
Proof. unfold lt. rewrite !FloatAxioms.ltb_spec. apply SFltb_trans. Qed.

(** *** The verification scan *)

Lemma scan_losses_ok (policy : Policy) (items : LinkMap) :
  (scan_losses policy items true "applied").1 = true <->
  Forall (fun item => gt item.2 policy.(max_packet_loss) = false) items.
Proof.
  induction items as [|[key loss] items IH]; cbn [scan_losses].
  - split; [constructor | reflexivity].
  - destruct (gt loss (max_packet_loss policy)) eqn:Hloss; cbn [fst].
    + split; [discriminate|]. intros H. apply Forall_cons in H as [H _].
      cbn [snd] in H. congruence.
    + rewrite IH. split; [now constructor | intros H; now apply Forall_cons in H].
Qed.

Lemma verify_ok (policy : Policy) (after : ResourceSnapshot) :
  (verify policy after).1 = true <->
  policy.(require_verification) = false \/
  Forall (fun item => gt item.2 policy.(max_packet_loss) = false) after.(link_loss).
Proof.
  unfold verify. destruct (require_verification policy).
  - rewrite scan_losses_ok. split; [auto | intros [H | H]; [discriminate | exact H]].
  - split; [auto | reflexivity].
Qed.

Lemma verify_ok_message (policy : Policy) (after : ResourceSnapshot) :
  (verify policy after).1 = true -> (verify policy after).2 = "applied".
Proof.
  intros H. pose proof (proj1 (verify_ok policy after) H) as Hok.
  unfold verify in *. destruct (require_verification policy); [|reflexivity].
  destruct Hok as [Hok | Hok]; [discriminate|].
  now rewrite (scan_losses_clean _ _ true "applied" Hok).
Qed.

Section Engine.

Variable float_of_str : string -> result float.
Context {T X : Type} `{!TelemetryProvider T} `{!ExecutorAdapter X}.

(** What [submit_intent] leaves behind, by how far it got. *)
Lemma submit_intent_cases (self : Engine T X) (intent : Intent) (w : World) :
  let res := submit_intent float_of_str self intent w in
  res.1.2.(topology) = self.(topology) /\
  res.1.2.(policy) = self.(policy) /\
  match res.1.1 with
  | Ok r =>
      exists ts,
        res.1.2.(audit_log)
        = self.(audit_log) ++
          [ {| audit_intent_id := intent.(intent_id);
               audit_plan_id := r.(result_plan_id);
               audit_ok := r.(ok); audit_message := r.(message);
               audit_ts := ts |} ] /\
        r.(ok) = (verify self.(policy) r.(after)).1 /\
        r.(message) = (verify self.(policy) r.(after)).2 /\
        exists tel w', r.(after) = (snapshot tel w').1.1
  | Raise _ => res.1.2.(audit_log) = self.(audit_log)
  end.
Proof.
  unfold submit_intent.
  destruct (snapshot (telemetry self) w) as [[before tel1] w1].
  cbn [with_telemetry topology policy executor telemetry audit_log].
  destruct (plan _ _ _ _ _ _) as [[p | e] w2]; [|cbn; auto].
  destruct (apply _ _ _) as [[[[] | e] ex'] w3]; [|cbn; auto].
  cbn [with_executor with_telemetry topology policy executor telemetry audit_log].
  destruct (snapshot tel1 w3) as [[after tel2] w4] eqn:Hafter.
  cbn [with_executor with_telemetry topology policy executor telemetry audit_log].
  destruct (verify (policy self) after) as [ok msg] eqn:Hv.
  destruct (time_time w4) as [ts w5]. cbn.
  rewrite Hv. repeat split. exists ts. repeat split.
  exists tel1, w3. now rewrite Hafter.
Qed.

(** X4.  [submit_intent] never touches the topology or the policy, and
    the audit log only grows at its end: a call that returns has appended
    one entry, which records the intent's id and the result's plan id, [ok]
    and message; a call that raises has left the log as it was. *)
Theorem submit_intent_audit (self : Engine T X) (intent : Intent) (w : World) :
  let res := submit_intent float_of_str self intent w in
  res.1.2.(topology) = self.(topology) /\
  res.1.2.(policy) = self.(policy) /\
  match res.1.1 with
  | Ok r =>
      exists ts,
        res.1.2.(audit_log)
        = self.(audit_log) ++
          [ {| audit_intent_id := intent.(intent_id);
               audit_plan_id := r.(result_plan_id);
               audit_ok := r.(ok); audit_message := r.(message);
               audit_ts := ts |} ]
  | Raise _ => res.1.2.(audit_log) = self.(audit_log)
  end.
Proof.
  pose proof (submit_intent_cases self intent w) as (Ht & Hp & Hres).
  cbn zeta in *. split; [exact Ht | split; [exact Hp|]].
  destruct (submit_intent float_of_str self intent w).1.1 as [r | e]; [|exact Hres].
  destruct Hres as (ts & Hlog & _). eauto.
Qed.

(** X5.  A result that [submit_intent] returns has [ok = true] exactly when
    the policy asks for no verification or no loss of the result's
    after-snapshot is above [max_packet_loss]; its message is then
    "applied". *)
Theorem submit_intent_ok_iff (self : Engine T X) (intent : Intent) (w : World) :
  match (submit_intent float_of_str self intent w).1.1 with
  | Ok r =>
      (r.(ok) = true <->
       self.(policy).(require_verification) = false \/
       Forall (fun item => gt item.2 self.(policy).(max_packet_loss) = false)
              r.(after).(link_loss)) /\
      (r.(ok) = true -> r.(message) = "applied")
  | Raise _ => True
  end.
Proof.
  pose proof (submit_intent_cases self intent w) as (_ & _ & Hres). cbn zeta in Hres.
  destruct (submit_intent float_of_str self intent w).1.1 as [r | e]; [|exact I].
  destruct Hres as (ts & _ & -> & -> & _). split.
  - apply verify_ok.
  - apply verify_ok_message.
Qed.

(** X6.  With a [max_packet_loss] that is a NaN no loss counts as above it:
    every result [submit_intent] returns has [ok = true]. *)
Theorem submit_intent_nan_bound (self : Engine T X) (intent : Intent) (w : World) :
  is_nan self.(policy).(max_packet_loss) = true ->
  match (submit_intent float_of_str self intent w).1.1 with
  | Ok r => r.(ok) = true /\ r.(message) = "applied"
  | Raise _ => True
  end.
Proof.
  intros Hnan. pose proof (submit_intent_cases self intent w) as (_ & _ & Hres).
  cbn zeta in Hres.
  destruct (submit_intent float_of_str self intent w).1.1 as [r | e]; [|exact I].
  destruct Hres as (ts & _ & -> & -> & _).
  assert (Hok : (verify (policy self) (after r)).1 = true).
  { apply verify_ok. right. apply Forall_forall. intros item _. now apply gt_nan_r. }
  split; [exact Hok | now apply verify_ok_message].
Qed.


(** *** The planner's errors *)

(** X8.  For a bandwidth intent the planner reads source, destination and
    bandwidth_gbps in this order and raises [KeyError] with the name of the
    first one the payload lacks; a bandwidth that is [None] is a
    [TypeError].  No identifier is drawn and the clock is not read. *)
Theorem plan_missing_field (topo : Topology) (snap : ResourceSnapshot)
  (intent : Intent) (pol : Policy) (w : World) :
  intent.(kind) = "bandwidth" ->
  (intent.(payload) !! "source" = None ->
   plan float_of_str topo snap intent pol w = (Raise (KeyError "source"), w)) /\
  (is_Some (intent.(payload) !! "source") ->
   intent.(payload) !! "destination" = None ->
   plan float_of_str topo snap intent pol w = (Raise (KeyError "destination"), w)) /\
  (is_Some (intent.(payload) !! "source") ->
   is_Some (intent.(payload) !! "destination") ->
   intent.(payload) !! "bandwidth_gbps" = None ->
   plan float_of_str topo snap intent pol w = (Raise (KeyError "bandwidth_gbps"), w)) /\
  (is_Some (intent.(payload) !! "source") ->
   is_Some (intent.(payload) !! "destination") ->
   intent.(payload) !! "bandwidth_gbps" = Some VNone ->
   exists msg,
     plan float_of_str topo snap intent pol w = (Raise (TypeError msg), w)).
Proof.
  intros Hkind. unfold plan, getitem. rewrite Hkind. cbn [String.eqb negb].
  change (negb ("bandwidth" =? "bandwidth")%string) with false. cbn iota.
  repeat split.
  - intros ->. reflexivity.
  - intros [s ->] ->. reflexivity.
  - intros [s ->] [d ->] ->. reflexivity.
  - intros [s ->] [d ->] ->. eexists. reflexivity.
Qed.

(** X9.  An intent made by [Intent.bandwidth] with a bandwidth that
    [float()] accepts is always planned: the plan carries the intent's id and
    one allocate_flow action with the factory's arguments and the policy's
    thresholds, for any topology and snapshot. *)
Theorem plan_of_factory (source destination : string)
  (bandwidth_gbps max_latency_ms : pyval) (priority : Z) (bw : float)
  (w0 w : World) (topo : Topology) (snap : ResourceSnapshot) (pol : Policy) :
  to_float float_of_str bandwidth_gbps = Ok bw ->
  exists p,
    plan float_of_str topo snap
         (bandwidth source destination bandwidth_gbps max_latency_ms priority w0).1
         pol w
    = (Ok p, (time_time (uuid4 w).2).2) /\
    p.(actions)
    = [allocate_flow (VStr source) (VStr destination) max_latency_ms bw pol] /\
    p.(plan_intent_id) = (uuid4 w0).1 /\
    p.(plan_id) = (uuid4 w).1.
Proof.
  intros Hbw. eexists. split.
  - apply (plan_bandwidth float_of_str topo snap _ pol w (VStr source)
             (VStr destination) bandwidth_gbps bw); try reflexivity. exact Hbw.
  - repeat split.
Qed.

End Engine.

(** *** The simulation adapters *)



Lemma sim_snapshot_losses (tel : SimTelemetry) (w : World) :
  (snapshot tel w).1.1.(link_loss)
  = [(("A", "B"), 0.005); (("B", "C"), 0.010); (("A", "C"), 0.030)]%float.
Proof. reflexivity. Qed.

(** X11.  With [SimTelemetry] as the provider, whatever the executor: a
    result that [submit_intent] returns has [ok = true] exactly when the
    policy asks for no verification or its [max_packet_loss] is not under
    the simulated loss 0.030 of the link from A to C. *)
Theorem sim_telemetry_ok_iff {X : Type} `{!ExecutorAdapter X}
  (float_of_str : string -> result float)
  (self : Engine SimTelemetry X) (intent : Intent) (w : World) :
  match (submit_intent float_of_str self intent w).1.1 with
  | Ok r =>
      r.(ok) = true <->
      self.(policy).(require_verification) = false \/
      lt self.(policy).(max_packet_loss) 0.030 = false
  | Raise _ => True
  end.
Proof.
  pose proof (submit_intent_cases float_of_str self intent w) as (_ & _ & Hres).
  cbn zeta in Hres.
  destruct (submit_intent float_of_str self intent w).1.1 as [r | e]; [|exact I].
  destruct Hres as (ts & _ & -> & _ & tel & w' & ->).
  rewrite verify_ok, sim_snapshot_losses.
  split; (intros [H | H]; [now left | right]).
  - apply Forall_cons in H as [_ H]. apply Forall_cons in H as [_ H].
    apply Forall_cons in H as [H _]. exact H.
  - set (m := max_packet_loss (policy self)) in *.
    assert (Hle : forall x, lt x 0.030 = true -> gt x m = false).
    { intros x Hx. unfold gt. fold (lt m x).
      destruct (lt m x) eqn:E; [|reflexivity].
      now rewrite (lt_trans m x 0.030 E Hx) in H. }
    repeat constructor; cbn [snd]; [now apply Hle | now apply Hle | exact H].
Qed.

(** *** Witnesses *)

(** The example's engine with a bound that is a NaN: the loss 0.030 no
    longer fails the verification. *)
Lemma submit_intent_nan_bound_witness :
  is_nan nan_engine.(policy).(max_packet_loss) = true /\
  exists r,
    (submit_intent text_unreached nan_engine example_intent world1).1.1 = Ok r /\
    r.(ok) = true /\ r.(message) = "applied".
Proof.
  assert (H1 : is_nan nan_engine.(policy).(max_packet_loss) = true) by reflexivity.
  split; [exact H1|].
  pose proof (submit_intent_nan_bound text_unreached nan_engine example_intent
                world1 H1) as H.
  destruct (submit_intent text_unreached nan_engine example_intent world1).1.1
    as [r | e] eqn:E; [eauto | now vm_compute in E].
Defined.

(** A bandwidth intent whose payload holds a source only. *)
Lemma plan_missing_field_witness :
  source_only_intent.(kind) = "bandwidth" /\
  is_Some (source_only_intent.(payload) !! "source") /\
  source_only_intent.(payload) !! "destination" = None /\
  plan text_unreached example_topology first_read.1.1 source_only_intent
       example_policy world1
  = (Raise (KeyError "destination"), world1).
Proof.
  assert (H1 : source_only_intent.(kind) = "bandwidth") by reflexivity.
  assert (H2 : is_Some (source_only_intent.(payload) !! "source"))
    by (eexists; reflexivity).
  assert (H3 : source_only_intent.(payload) !! "destination" = None) by reflexivity.
  split; [exact H1 | split; [exact H2 | split; [exact H3|]]].
  exact (proj1 (proj2 (plan_missing_field text_unreached example_topology
                         first_read.1.1 source_only_intent example_policy world1 H1))
           H2 H3).
Defined.

(** The example's intent, as the factory makes it. *)
Lemma plan_of_factory_witness :
  to_float text_unreached (VInt 50) = Ok 50%float /\
  exists p,
    plan text_unreached example_topology first_read.1.1 example_intent
         example_policy first_read.2
    = (Ok p, (time_time (uuid4 first_read.2).2).2) /\
    p.(actions)
    = [allocate_flow (VStr "A") (VStr "C") (VInt 25) 50 example_policy] /\
    p.(plan_intent_id) = "uuid-0" /\
    p.(plan_id) = "uuid-1".
Proof.
  assert (H1 : to_float text_unreached (VInt 50) = Ok 50%float)
    by (vm_compute; reflexivity).
  split; [exact H1|].
  exact (plan_of_factory text_unreached "A" "C" (VInt 50) (VInt 25) 5 50%float
           world0 first_read.2 example_topology first_read.1.1 example_policy H1).
Defined.

End ControlFacts.

(** ** scheduler_baselines.py: the estimator *)

Module ModelsFacts.
Import Py Scheduler Spec Inputs PyFacts SchedulerFacts ControlFacts.

#[local] Open Scope float_scope.
#[local] Open Scope list_scope.

Section Estimator.

Variable libm_pow : float -> float -> float.

(** The load factor of a context: the part of [Models.estimate] that does
    not depend on the target. *)
Definition load (context : gmap string float) : result num :=
  batch_pow ← float_pow libm_pow (get context "batch_size" 1.0) 0.5;
  concurrency_pow ← float_pow libm_pow (get context "concurrency" 1.0) 0.6;
  Ok (num_mul (num_mul (Real (get context "tokens" 512.0 / 512.0)) batch_pow)
              concurrency_pow).

(** A base estimate under a load. *)
Definition scaled (base : Estimate) (l : num) : Estimated :=
  match l with
  | Real l =>
      RealEst {| lat_ms := base.(lat_ms) * (1.0 + 0.25 * l);
                 energy := base.(energy) * (1.0 + 0.35 * l);
                 cost := base.(cost) * (1.0 + 0.20 * l) |}
  | Complex => ComplexEst
  end.

Lemma estimate_load (t : string) (context : gmap string float) :
  Models.estimate libm_pow t context
  = (base ← getitem Models.mean t; l ← load context; Ok (scaled base l)).
Proof.
  unfold Models.estimate, load.
  destruct (getitem Models.mean t) as [base | e]; cbn [mbind result_bind]; [|reflexivity].
  destruct (float_pow libm_pow _ 0.5) as [pb | e]; cbn [mbind result_bind]; [|reflexivity].
  destruct (float_pow libm_pow _ 0.6) as [pc | e]; cbn [mbind result_bind]; [|reflexivity].
  now destruct (num_mul _ pc).
Qed.

Lemma mean_tracked (t : string) :
  t ∈ cands -> exists base, getitem Models.mean t = Ok base.
Proof.
  intros Ht. apply GreedyFacts.cands_cases in Ht as [-> | [-> | ->]];
    eexists; reflexivity.
Qed.

Lemma mean_untracked (t : string) :
  t ∉ cands -> getitem Models.mean t = Raise (KeyError t).
Proof.
  intros Ht. apply GreedyFacts.not_cands_cases in Ht as (H1 & H2 & H3).
  unfold getitem, Models.mean.
  now rewrite !lookup_insert_ne, lookup_empty by assumption.
Qed.

(** X12.  [Models.estimate] knows the three targets only: for any other
    name it raises [KeyError] with that name, whatever the context, before
    it computes anything. *)
Theorem estimate_unknown_target (t : string) (context : gmap string float) :
  t ∉ cands -> Models.estimate libm_pow t context = Raise (KeyError t).
Proof. intros Ht. now rewrite estimate_load, (mean_untracked t Ht). Qed.

Lemma float_pow_raises (iv iw : float) (e : exn) :
  float_pow libm_pow iv iw = Raise e -> e = OverflowError.
Proof.
  unfold float_pow.
  destruct (is_nan iv), (is_infinity iv), (feq iv 0), (lt iv 0), (feq iv 1),
    (is_infinity (libm_pow iv iw)); congruence.
Qed.

Lemma load_raises (context : gmap string float) (e : exn) :
  load context = Raise e -> e = OverflowError.
Proof.
  unfold load.
  destruct (float_pow libm_pow _ 0.5) as [pb | e1] eqn:E1; cbn [mbind result_bind].
  - destruct (float_pow libm_pow _ 0.6) as [pc | e2] eqn:E2; cbn [mbind result_bind];
      [discriminate|].
    intros [= <-]. now apply float_pow_raises in E2.
  - intros [= <-]. now apply float_pow_raises in E1.
Qed.

(** A negative finite base gives a complex power. *)
Lemma float_pow_negative (iv iw : float) :
  lt iv 0 = true -> is_infinity iv = false -> float_pow libm_pow iv iw = Ok Complex.
Proof.
  intros Hneg Hfin. unfold float_pow. rewrite Hfin, Hneg.
  assert (Hnan : is_nan iv = false).
  { destruct (is_nan iv) eqn:E; [|reflexivity].
    pose proof (gt_nan_r 0 iv E) as H. unfold gt in H. unfold lt in Hneg. congruence. }
  assert (Hz : feq iv 0 = false).
  { destruct (feq iv 0) eqn:E; [|reflexivity].
    rewrite (feq_zero_lt iv 0 E) in Hneg. now rewrite lt_irrefl in Hneg. }
  now rewrite Hnan, Hz.
Qed.

Lemma num_mul_complex_r (a : num) : num_mul a Complex = Complex.
Proof. now destruct a. Qed.

(** A negative finite batch size or concurrency, the other power being
    computed, makes the load complex. *)
Lemma load_complex (context : gmap string float) :
  (lt (get context "batch_size" 1.0) 0 = true /\
   is_infinity (get context "batch_size" 1.0) = false /\
   exists pc, float_pow libm_pow (get context "concurrency" 1.0) 0.6 = Ok pc) \/
  (lt (get context "concurrency" 1.0) 0 = true /\
   is_infinity (get context "concurrency" 1.0) = false /\
   exists pb, float_pow libm_pow (get context "batch_size" 1.0) 0.5 = Ok pb) ->
  load context = Ok Complex.
Proof.
  unfold load. intros [(Hneg & Hfin & pc & Hpc) | (Hneg & Hfin & pb & Hpb)].
  - rewrite (float_pow_negative _ 0.5 Hneg Hfin), Hpc. cbn.
    now destruct pc.
  - rewrite Hpb, (float_pow_negative _ 0.6 Hneg Hfin). cbn.
    now rewrite num_mul_complex_r.
Qed.

(** On a tracked target the estimate follows the load. *)
Lemma estimate_raise (t : string) (context : gmap string float) (e : exn) :
  t ∈ cands -> load context = Raise e ->
  Models.estimate libm_pow t context = Raise e.
Proof.
  intros Ht Hl. destruct (mean_tracked t Ht) as [base Hb].
  now rewrite estimate_load, Hb, Hl.
Qed.

Lemma estimate_complex (t : string) (context : gmap string float) :
  t ∈ cands -> load context = Ok Complex ->
  Models.estimate libm_pow t context = Ok ComplexEst.
Proof.
  intros Ht Hl. destruct (mean_tracked t Ht) as [base Hb].
  now rewrite estimate_load, Hb, Hl.
Qed.

Lemma estimate_real (t : string) (context : gmap string float) (l : float) :
  t ∈ cands -> load context = Ok (Real l) ->
  exists est, Models.estimate libm_pow t context = Ok (RealEst est).
Proof.
  intros Ht Hl. destruct (mean_tracked t Ht) as [base Hb].
  rewrite estimate_load, Hb, Hl. cbn. eauto.
Qed.

Lemma cands_photonic : "photonic" ∈ cands.
Proof. unfold cands. rewrite !elem_of_cons. auto. Qed.

Lemma cands_gpu : "gpu" ∈ cands.
Proof. unfold cands. rewrite !elem_of_cons. auto. Qed.

Lemma cands_cpu : "cpu" ∈ cands.
Proof. unfold cands. rewrite !elem_of_cons. auto. Qed.

Lemma real_estimates_of_load (context : gmap string float) (l : float) :
  load context = Ok (Real l) ->
  exists all, real_estimates libm_pow context = Ok all.
Proof.
  intros Hl.
  destruct (estimate_real _ context l cands_photonic Hl) as [e1 H1].
  destruct (estimate_real _ context l cands_gpu Hl) as [e2 H2].
  destruct (estimate_real _ context l cands_cpu Hl) as [e3 H3].
  unfold real_estimates, cands. cbn [mapM]. rewrite H1, H2, H3. cbn. eauto.
Qed.

(** When the load cannot be computed, or is complex, both schedulers raise
    at their first candidate. *)
Lemma decide_load_raises (context : gmap string float) (e : exn) (slo : SLO)
  (self : ConstrainedEpsilonGreedy.t) (u : float) (k : nat) :
  load context = Raise e ->
  ConstrainedBestScore.decide libm_pow slo context = Raise e /\
  ConstrainedEpsilonGreedy.decide libm_pow self slo context u k = Raise e.
Proof.
  intros Hl. split.
  - unfold ConstrainedBestScore.decide, cands.
    cbn [ConstrainedBestScore.collect_safe].
    now rewrite (estimate_raise _ context e cands_photonic Hl).
  - unfold ConstrainedEpsilonGreedy.decide, ConstrainedEpsilonGreedy.estimates, cands.
    cbn [mapM]. now rewrite (estimate_raise _ context e cands_photonic Hl).
Qed.

Lemma decide_load_complex (context : gmap string float) (slo : SLO)
  (self : ConstrainedEpsilonGreedy.t) (u : float) (k : nat) :
  load context = Ok Complex ->
  exists msg,
    ConstrainedBestScore.decide libm_pow slo context = Raise (TypeError msg) /\
    ConstrainedEpsilonGreedy.decide libm_pow self slo context u k
    = Raise (TypeError msg).
Proof.
  intros Hl. eexists. split.
  - unfold ConstrainedBestScore.decide, cands.
    cbn [ConstrainedBestScore.collect_safe].
    rewrite (estimate_complex _ context cands_photonic Hl). reflexivity.
  - unfold ConstrainedEpsilonGreedy.decide, ConstrainedEpsilonGreedy.estimates, cands.
    cbn [mapM].
    rewrite (estimate_complex _ context cands_photonic Hl),
      (estimate_complex _ context cands_gpu Hl),
      (estimate_complex _ context cands_cpu Hl). reflexivity.
Qed.

(** X13.  A batch size or a concurrency that is negative and finite (the
    power of the other one being computed) makes every estimate complex, and
    both schedulers raise [TypeError] at their first comparison. *)
Theorem decide_negative_load (context : gmap string float) (slo : SLO)
  (self : ConstrainedEpsilonGreedy.t) (u : float) (k : nat) :
  (lt (get context "batch_size" 1.0) 0 = true /\
   is_infinity (get context "batch_size" 1.0) = false /\
   exists pc, float_pow libm_pow (get context "concurrency" 1.0) 0.6 = Ok pc) \/
  (lt (get context "concurrency" 1.0) 0 = true /\
   is_infinity (get context "concurrency" 1.0) = false /\
   exists pb, float_pow libm_pow (get context "batch_size" 1.0) 0.5 = Ok pb) ->
  exists msg,
    ConstrainedBestScore.decide libm_pow slo context = Raise (TypeError msg) /\
    ConstrainedEpsilonGreedy.decide libm_pow self slo context u k
    = Raise (TypeError msg).
Proof. intros H. apply decide_load_complex, load_complex, H. Qed.

End Estimator.

(** A batch size of minus one under the demo's SLO. *)
Lemma decide_negative_load_witness :
  (lt (get negative_batch "batch_size" 1.0) 0 = true /\
   is_infinity (get negative_batch "batch_size" 1.0) = false /\
   float_pow libm_unreached (get negative_batch "concurrency" 1.0) 0.6
   = Ok (Real 1.0)) /\
  exists msg,
    ConstrainedBestScore.decide libm_unreached demo_slo negative_batch
    = Raise (TypeError msg) /\
    ConstrainedEpsilonGreedy.decide libm_unreached
      (ConstrainedEpsilonGreedy.init 0.1 0.05) demo_slo negative_batch 0.5 0
    = Raise (TypeError msg).
Proof.
  assert (H : lt (get negative_batch "batch_size" 1.0) 0 = true /\
              is_infinity (get negative_batch "batch_size" 1.0) = false /\
              float_pow libm_unreached (get negative_batch "concurrency" 1.0) 0.6
              = Ok (Real 1.0)) by (repeat split; reflexivity).
  split; [exact H|].
  apply (decide_negative_load libm_unreached negative_batch demo_slo).
  left. destruct H as (H1 & H2 & H3). eauto.
Defined.

(** A target that is not tracked, under the default context. *)
Lemma estimate_unknown_target_witness :
  ("tpu" ∉ cands) /\
  Models.estimate libm_unreached "tpu" ∅ = Raise (KeyError "tpu").
Proof.
  assert (H : "tpu" ∉ cands)
    by (unfold cands; rewrite !not_elem_of_cons;
        repeat split; try discriminate; apply not_elem_of_nil).
  split; [exact H|]. exact (estimate_unknown_target libm_unreached "tpu" ∅ H).
Defined.

End ModelsFacts.

(** ** scheduler_baselines.py: what the two [decide] return and raise *)

Module DecideFacts.
Import Py Scheduler Spec Inputs PyFacts SchedulerFacts GreedyFacts ControlFacts ModelsFacts.

#[local] Open Scope float_scope.
#[local] Open Scope list_scope.

Lemma max_by_elem {A : Type} (key : A -> float) (items : list A) (x : A) :
  max_by key items = Ok x -> x ∈ items.
Proof.
  intros H. destruct items as [|first rest]; [discriminate|].
  destruct (max_by_first_max key (first :: rest)) as (y & Hy & Hmax); [discriminate|].
  rewrite H in Hy. injection Hy as <-. now apply first_max_elem in Hmax.
Qed.

Lemma choice_Ok_elem {A : Type} (k : nat) (seq : list A) (x : A) :
  ConstrainedEpsilonGreedy.choice k seq = Ok x -> x ∈ seq.
Proof.
  unfold ConstrainedEpsilonGreedy.choice.
  destruct (seq !! (k mod length seq)%nat) eqn:E; [|discriminate].
  intros [= <-]. apply list_elem_of_lookup. eauto.
Qed.

Lemma scored_elem (slo : SLO) (cs : list (string * Estimate))
  (triples : list (string * Estimate * float)) (c : string * Estimate) (s : float) :
  ConstrainedBestScore.scored slo cs = Ok triples ->
  (c, s) ∈ triples -> c ∈ cs /\ score c.2 slo = Ok s.
Proof.
  unfold ConstrainedBestScore.scored. revert triples.
  induction cs as [|[t e] cs IH]; intros triples; cbn [mapM].
  - intros [= <-] H. now apply elem_of_nil in H.
  - destruct (score e slo) as [s' | err] eqn:Hs; cbn [mbind result_bind]; [|discriminate].
    destruct (mapM _ cs) as [tl | err]; cbn [mbind result_bind]; [|discriminate].
    intros [= <-] H. apply elem_of_cons in H as [[= -> ->] | H].
    + split; [left | exact Hs].
    + destruct (IH tl eq_refl H) as [Hin Hsc]. split; [now right | exact Hsc].
Qed.


Lemma vals_elem (self : ConstrainedEpsilonGreedy.t) (slo : SLO)
  (cs : list (string * Estimate)) (vs : list (string * Estimate * float))
  (c : string * Estimate) (v : float) :
  ConstrainedEpsilonGreedy.vals self slo cs = Ok vs -> (c, v) ∈ vs -> c ∈ cs.
Proof.
  unfold ConstrainedEpsilonGreedy.vals. revert vs.
  induction cs as [|[t e] cs IH]; intros vs; cbn [mapM].
  - intros [= <-] H. now apply elem_of_nil in H.
  - destruct (score e slo) as [s | err]; cbn [mbind result_bind]; [|discriminate].
    destruct (getitem (ConstrainedEpsilonGreedy.mu self) t) as [m | err];
      cbn [mbind result_bind]; [|discriminate].
    destruct (getitem (ConstrainedEpsilonGreedy.n self) t) as [cnt | err];
      cbn [mbind result_bind]; [|discriminate].
    destruct (truediv_int m cnt) as [avg | err]; cbn [mbind result_bind]; [|discriminate].
    destruct (mapM _ cs) as [tl | err]; cbn [mbind result_bind]; [|discriminate].
    intros [= <-] H. apply elem_of_cons in H as [[= -> ->] | H]; [left|].
    right. now apply (IH tl).
Qed.






Section Decide.

Variable libm_pow : float -> float -> float.
Variable context : gmap string float.

#[local] Abbreviation real_of :=
  (fun t : string => est ← Models.estimate libm_pow t context ≫= comparable; Ok (t, est)).

Lemma mapM_real_elem (ts : list string) (all : list (string * Estimate))
  (t : string) (e : Estimate) :
  mapM real_of ts = Ok all ->
  (t, e) ∈ all -> t ∈ ts /\ Models.estimate libm_pow t context = Ok (RealEst e).
Proof.
  revert all. induction ts as [|t' ts IH]; intros all; cbn [mapM].
  - intros [= <-] H. now apply elem_of_nil in H.
  - destruct (Models.estimate libm_pow t' context) as [[est|]|err] eqn:He;
      cbn; try discriminate.
    destruct (mapM real_of ts) as [tl | err]; cbn; try discriminate.
    intros [= <-] H. apply elem_of_cons in H as [[= -> ->] | H].
    + split; [left | exact He].
    + destruct (IH tl eq_refl H) as [Hin Hest]. split; [now right | exact Hest].
Qed.

Lemma real_estimates_elem (all : list (string * Estimate)) (t : string) (e : Estimate) :
  real_estimates libm_pow context = Ok all ->
  (t, e) ∈ all -> t ∈ cands /\ Models.estimate libm_pow t context = Ok (RealEst e).
Proof. apply mapM_real_elem. Qed.

Lemma mapM_real_covers (ts : list string) (all : list (string * Estimate))
  (t : string) (e : Estimate) :
  mapM real_of ts = Ok all ->
  t ∈ ts -> Models.estimate libm_pow t context = Ok (RealEst e) -> (t, e) ∈ all.
Proof.
  revert all. induction ts as [|t' ts IH]; intros all; cbn [mapM].
  - intros _ H. now apply elem_of_nil in H.
  - destruct (Models.estimate libm_pow t' context) as [[est|]|err] eqn:He;
      cbn; try discriminate.
    destruct (mapM real_of ts) as [tl | err]; cbn; try discriminate.
    intros [= <-] H Hest. apply elem_of_cons in H as [-> | H].
    + rewrite He in Hest. injection Hest as ->. left.
    + right. now apply (IH tl).
Qed.

(** The estimates are real exactly when the load is. *)
Lemma load_cases :
  (exists all, real_estimates libm_pow context = Ok all) \/
  (exists e, load libm_pow context = Raise e /\ e = OverflowError) \/
  load libm_pow context = Ok Complex.
Proof.
  destruct (load libm_pow context) as [[l|] | e] eqn:Hl.
  - left. now apply (real_estimates_of_load libm_pow context l).
  - now right; right.
  - right; left. exists e. split; [reflexivity|]. now apply load_raises in Hl.
Qed.

(** What a returning [ConstrainedBestScore.decide] went through. *)
Lemma best_decide_inv (slo : SLO) (t : string) (info : BestInfo) :
  ConstrainedBestScore.decide libm_pow slo context = Ok (t, info) ->
  exists all,
    real_estimates libm_pow context = Ok all /\
    info.(best_target) = t /\
    (t, info.(best_expected)) ∈ safe_or_all slo all /\
    score info.(best_expected) slo = Ok info.(best_score).
Proof.
  intros Hdec.
  destruct load_cases as [[all Hall] | [(e & Hl & _) | Hl]].
  - exists all. split; [exact Hall|].
    rewrite (best_score_decide_eq libm_pow context slo all Hall) in Hdec.
    destruct (ConstrainedBestScore.scored slo (safe_or_all slo all))
      as [triples | err] eqn:Hs; cbn [mbind result_bind] in Hdec; [|discriminate].
    destruct (max_by snd triples) as [[[t' e'] s'] | err] eqn:Hm;
      cbn [mbind result_bind] in Hdec; [|discriminate].
    injection Hdec as <- <-. cbn.
    apply max_by_elem in Hm.
    destruct (scored_elem slo _ _ (t', e') s' Hs Hm) as [Hin Hsc]. auto.
  - destruct (decide_load_raises libm_pow context e slo
                (ConstrainedEpsilonGreedy.init 0 0) 0 0 Hl) as [H _]. congruence.
  - destruct (decide_load_complex libm_pow context slo
                (ConstrainedEpsilonGreedy.init 0 0) 0 0 Hl) as (msg & H & _). congruence.
Qed.

(** What a returning [ConstrainedEpsilonGreedy.decide] went through. *)
Lemma greedy_decide_inv (self : ConstrainedEpsilonGreedy.t) (slo : SLO)
  (u : float) (k : nat) (t : string) (info : GreedyInfo) :
  ConstrainedEpsilonGreedy.decide libm_pow self slo context u k = Ok (t, info) ->
  exists all,
    real_estimates libm_pow context = Ok all /\
    info.(target) = t /\
    info.(canary_fraction) = ConstrainedEpsilonGreedy.canary self /\
    (t, info.(expected)) ∈ safe_or_all slo all /\
    ((lt u (ConstrainedEpsilonGreedy.eps self) = true /\ info.(mode) = "explore") \/
     (lt u (ConstrainedEpsilonGreedy.eps self) = false /\ info.(mode) = "exploit")).
Proof.
  intros Hdec.
  destruct load_cases as [[all Hall] | [(e & Hl & _) | Hl]].
  - exists all. split; [exact Hall|].
    rewrite (greedy_decide_eq libm_pow context self slo u k all Hall) in Hdec.
    destruct (lt u (ConstrainedEpsilonGreedy.eps self)).
    + destruct (ConstrainedEpsilonGreedy.choice k (safe_or_all slo all))
        as [[t' e'] | err] eqn:Hc; cbn [mbind result_bind] in Hdec; [|discriminate].
      injection Hdec as <- <-. cbn. apply choice_Ok_elem in Hc. auto 6.
    + destruct (ConstrainedEpsilonGreedy.vals self slo (safe_or_all slo all))
        as [vs | err] eqn:Hv; cbn [mbind result_bind] in Hdec; [|discriminate].
      destruct (max_by snd vs) as [[[t' e'] v] | err] eqn:Hm;
        cbn [mbind result_bind] in Hdec; [|discriminate].
      injection Hdec as <- <-. cbn. apply max_by_elem in Hm.
      pose proof (vals_elem self slo _ _ (t', e') v Hv Hm). auto 6.
  - destruct (decide_load_raises libm_pow context e slo self u k Hl) as [_ H].
    congruence.
  - destruct (decide_load_complex libm_pow context slo self u k Hl) as (msg & _ & H).
    congruence.
Qed.

Lemma safe_or_all_safe (slo : SLO) (all : list (string * Estimate))
  (c c' : string * Estimate) :
  c' ∈ all -> safe slo c' = true -> c ∈ safe_or_all slo all -> safe slo c = true.
Proof.
  intros Hin Hsafe Hc. unfold safe_or_all in Hc.
  assert (Hf : c' ∈ List.filter (safe slo) all)
    by (rewrite list_elem_of_In, filter_In, <- list_elem_of_In; auto).
  destruct (List.filter (safe slo) all) as [|x kept] eqn:E.
  - now apply elem_of_nil in Hf.
  - rewrite <- E in Hc. rewrite list_elem_of_In, filter_In in Hc. tauto.
Qed.

(** X14.  What [ConstrainedBestScore.decide] returns is consistent: the
    metadata names the returned target, which is one of the three
    candidates; [expected] is that target's estimate and [score] is its
    score under the SLO. *)
Theorem best_decide_metadata (slo : SLO) (t : string) (info : BestInfo) :
  ConstrainedBestScore.decide libm_pow slo context = Ok (t, info) ->
  info.(best_target) = t /\
  t ∈ cands /\
  Models.estimate libm_pow t context = Ok (RealEst info.(best_expected)) /\
  score info.(best_expected) slo = Ok info.(best_score).
Proof.
  intros Hdec. destruct (best_decide_inv slo t info Hdec) as (all & Hall & Ht & Hin & Hs).
  apply safe_or_all_subset in Hin.
  destruct (real_estimates_elem all _ _ Hall Hin) as [Hc He]. auto.
Qed.

(** X15.  What [ConstrainedEpsilonGreedy.decide] returns is consistent: the
    metadata names the returned target, one of the three candidates, with
    its estimate and the scheduler's canary fraction; the mode is "explore"
    when the draw was under [eps] and "exploit" when it was not. *)
Theorem greedy_decide_metadata (self : ConstrainedEpsilonGreedy.t) (slo : SLO)
  (u : float) (k : nat) (t : string) (info : GreedyInfo) :
  ConstrainedEpsilonGreedy.decide libm_pow self slo context u k = Ok (t, info) ->
  info.(target) = t /\
  t ∈ cands /\
  Models.estimate libm_pow t context = Ok (RealEst info.(expected)) /\
  info.(canary_fraction) = ConstrainedEpsilonGreedy.canary self /\
  ((lt u (ConstrainedEpsilonGreedy.eps self) = true /\ info.(mode) = "explore") \/
   (lt u (ConstrainedEpsilonGreedy.eps self) = false /\ info.(mode) = "exploit")).
Proof.
  intros Hdec.
  destruct (greedy_decide_inv self slo u k t info Hdec)
    as (all & Hall & Ht & Hcan & Hin & Hmode).
  apply safe_or_all_subset in Hin.
  destruct (real_estimates_elem all _ _ Hall Hin) as [Hc He]. auto 6.
Qed.

(** X16.  Neither scheduler returns an unsafe target while a safe one
    exists: if some candidate's estimate passes the safety test, so does the
    estimate returned, in the exploit branch and in the explore branch
    alike. *)
Theorem decide_prefers_safe (self : ConstrainedEpsilonGreedy.t) (slo : SLO)
  (u : float) (k : nat) (t' : string) (e' : Estimate) :
  t' ∈ cands ->
  Models.estimate libm_pow t' context = Ok (RealEst e') ->
  _safe e' slo = true ->
  (forall t info,
     ConstrainedBestScore.decide libm_pow slo context = Ok (t, info) ->
     _safe info.(best_expected) slo = true) /\
  (forall t info,
     ConstrainedEpsilonGreedy.decide libm_pow self slo context u k = Ok (t, info) ->
     _safe info.(expected) slo = true).
Proof.
  intros Ht' He' Hsafe. split; intros t info Hdec.
  - destruct (best_decide_inv slo t info Hdec) as (all & Hall & _ & Hin & _).
    apply (safe_or_all_safe slo all (t, best_expected info) (t', e')); auto.
    apply (mapM_real_covers cands all t' e' Hall Ht' He').
  - destruct (greedy_decide_inv self slo u k t info Hdec) as (all & Hall & _ & _ & Hin & _).
    apply (safe_or_all_safe slo all (t, expected info) (t', e')); auto.
    apply (mapM_real_covers cands all t' e' Hall Ht' He').
Qed.


End Decide.

(** *** Witnesses *)


Lemma demo_best_decide :
  ConstrainedBestScore.decide libm_unreached demo_slo ∅ = Ok ("photonic", demo_best).
Proof. vm_compute. reflexivity. Qed.

Lemma demo_greedy_decide :
  ConstrainedEpsilonGreedy.decide libm_unreached
    (ConstrainedEpsilonGreedy.init 0.2 0.05) demo_slo ∅ 0.5 0
  = Ok ("photonic", demo_exploit).
Proof. vm_compute. reflexivity. Qed.

(** The demo's decision. *)
Lemma best_decide_metadata_witness :
  ConstrainedBestScore.decide libm_unreached demo_slo ∅ = Ok ("photonic", demo_best) /\
  demo_best.(best_target) = "photonic" /\
  "photonic" ∈ cands /\
  Models.estimate libm_unreached "photonic" ∅ = Ok (RealEst demo_best.(best_expected)) /\
  score demo_best.(best_expected) demo_slo = Ok demo_best.(best_score).
Proof.
  split; [exact demo_best_decide|].
  exact (best_decide_metadata libm_unreached ∅ demo_slo "photonic" demo_best
           demo_best_decide).
Defined.

(** The demo's decision with the draw 0.5 against [eps = 0.2]. *)
Lemma greedy_decide_metadata_witness :
  ConstrainedEpsilonGreedy.decide libm_unreached
    (ConstrainedEpsilonGreedy.init 0.2 0.05) demo_slo ∅ 0.5 0
  = Ok ("photonic", demo_exploit) /\
  demo_exploit.(target) = "photonic" /\
  "photonic" ∈ cands /\
  Models.estimate libm_unreached "photonic" ∅ = Ok (RealEst demo_exploit.(expected)) /\
  demo_exploit.(canary_fraction) = 0.05 /\
  ((lt 0.5 0.2 = true /\ demo_exploit.(mode) = "explore") \/
   (lt 0.5 0.2 = false /\ demo_exploit.(mode) = "exploit")).
Proof.
  split; [exact demo_greedy_decide|].
  exact (greedy_decide_metadata libm_unreached ∅
           (ConstrainedEpsilonGreedy.init 0.2 0.05) demo_slo 0.5 0 "photonic"
           demo_exploit demo_greedy_decide).
Defined.

(** Under the demo's SLO photonic is safe, and so is what is returned. *)
Lemma decide_prefers_safe_witness :
  "photonic" ∈ cands /\
  Models.estimate libm_unreached "photonic" ∅ = Ok (RealEst photonic_default) /\
  _safe photonic_default demo_slo = true /\
  _safe demo_best.(best_expected) demo_slo = true /\
  _safe demo_exploit.(expected) demo_slo = true.
Proof.
  assert (H2 : Models.estimate libm_unreached "photonic" ∅
               = Ok (RealEst photonic_default)) by (vm_compute; reflexivity).
  assert (H3 : _safe photonic_default demo_slo = true) by reflexivity.
  destruct (decide_prefers_safe libm_unreached ∅
              (ConstrainedEpsilonGreedy.init 0.2 0.05) demo_slo 0.5 0 "photonic"
              photonic_default cands_photonic H2 H3) as [Hb Hg].
  split; [exact cands_photonic | split; [exact H2 | split; [exact H3|]]].
  split; [exact (Hb _ _ demo_best_decide) | exact (Hg _ _ demo_greedy_decide)].
Defined.


End DecideFacts.

(** ** scheduler_baselines.py: the adaptive scheduler over many calls *)

Module Runs.
Import Py Scheduler.

(** A caller that reports outcomes one after the other, and goes on when a
    report raises: each call is a target with its outcome. *)
Definition observe_all (self : ConstrainedEpsilonGreedy.t)
  (calls : list (string * gmap string float)) : ConstrainedEpsilonGreedy.t :=
  fold_left (fun self call => (ConstrainedEpsilonGreedy.observe self call.1 call.2).2)
            calls self.

(** The outcomes reported for one target, in the order of the calls. *)
Definition outcomes_of (t : string) (calls : list (string * gmap string float))
  : list (gmap string float) :=
  snd <$> List.filter (fun call => String.eqb call.1 t) calls.

(** The scheduler with another [eps]. *)
Definition with_eps (self : ConstrainedEpsilonGreedy.t) (eps : float)
  : ConstrainedEpsilonGreedy.t :=
  {| ConstrainedEpsilonGreedy.eps := eps;
     ConstrainedEpsilonGreedy.canary := ConstrainedEpsilonGreedy.canary self;
     ConstrainedEpsilonGreedy.mu := ConstrainedEpsilonGreedy.mu self;
     ConstrainedEpsilonGreedy.n := ConstrainedEpsilonGreedy.n self |}.

End Runs.

Module AdaptiveFacts.
Import Py Scheduler Spec Inputs PyFacts SchedulerFacts GreedyFacts ControlFacts.
Import ModelsFacts DecideFacts Runs.
Import ConstrainedEpsilonGreedy.

#[local] Open Scope float_scope.
#[local] Open Scope list_scope.

(** *** More on the order and the arithmetic of floats *)

Lemma SFltb_leb_trans (x y z : spec_float) :
  SFltb x y = true -> SFleb y z = true -> SFltb x z = true.
Proof.
  unfold SFltb, SFleb.
  destruct x as [sx|sx| |sx mx ex], y as [sy|sy| |sy my ey], z as [sz|sz| |sz mz ez];
    by_classes.
Qed.

Lemma lt_le_trans (a b c : float) : lt a b = true -> le b c = true -> lt a c = true.
Proof.
  unfold lt, le. rewrite !FloatAxioms.ltb_spec, FloatAxioms.leb_spec.
  apply SFltb_leb_trans.
Qed.

Lemma is_nan_of_spec (x : float) : Prim2SF x = S754_nan -> is_nan x = true.
Proof. intros H. unfold is_nan. now rewrite FloatAxioms.eqb_spec, H. Qed.

Lemma is_nan_add_l (a b : float) : is_nan a = true -> is_nan (a + b) = true.
Proof.
  intros H. apply is_nan_of_spec. now rewrite add_spec, (is_nan_spec a H).
Qed.

Lemma is_nan_sub_l (a b : float) : is_nan a = true -> is_nan (a - b) = true.
Proof.
  intros H. apply is_nan_of_spec. now rewrite sub_spec, (is_nan_spec a H).
Qed.

Lemma is_nan_add_r (a b : float) : is_nan b = true -> is_nan (a + b) = true.
Proof.
  intros H. apply is_nan_of_spec. rewrite add_spec, (is_nan_spec b H).
  unfold SF64add, SFadd. now destruct (Prim2SF a).
Qed.

Lemma is_nan_div_r (a b : float) : is_nan b = true -> is_nan (a / b) = true.
Proof.
  intros H. apply is_nan_of_spec. rewrite div_spec, (is_nan_spec b H).
  unfold SF64div, SFdiv. now destruct (Prim2SF a).
Qed.

(** Adding [+0.0] to both sides changes no comparison. *)
Lemma SFltb_add_zero (x y : spec_float) :
  SFltb (SF64add x (S754_zero false)) (SF64add y (S754_zero false)) = SFltb x y.
Proof.
  unfold SFltb, SF64add, SFadd.
  destruct x as [sx|sx| |sx mx ex], y as [sy|sy| |sy my ey];
    repeat match goal with s : bool |- _ => destruct s end; reflexivity.
Qed.

Lemma gt_add_zero (a b : float) : gt (a + 0) (b + 0) = gt a b.
Proof.
  unfold gt. rewrite !FloatAxioms.ltb_spec, !add_spec, Prim2SF_zero.
  apply SFltb_add_zero.
Qed.

Lemma max_loop_map {A B : Type} (f : A -> B) (key1 : A -> float) (key2 : B -> float)
  (best : A) (items : list A) :
  (forall a b, gt (key2 (f a)) (key2 (f b)) = gt (key1 a) (key1 b)) ->
  max_loop key2 (f best) (map f items) = f (max_loop key1 best items).
Proof.
  intros Hkey. revert best. induction items as [|item rest IH]; intros best;
    cbn [max_loop map]; [reflexivity|].
  rewrite Hkey. destruct (gt (key1 item) (key1 best)); apply IH.
Qed.

(** *** [eps] at and beyond its ends *)

(** X18.  For a draw in [0, 1) only [eps] against the draw matters: every
    [eps] that is zero, negative or a NaN decides as [eps = 0] does, and
    every [eps] of one or more as [eps = 1] does. *)
Theorem eps_beyond_ends (libm_pow : float -> float -> float) (self : t) (slo : SLO)
  (context : gmap string float) (u : float) (k : nat) :
  le 0 u = true ->
  lt u 1 = true ->
  (le (eps self) 0 = true \/ is_nan (eps self) = true ->
   decide libm_pow self slo context u k
   = decide libm_pow (with_eps self 0) slo context u k) /\
  (le 1 (eps self) = true ->
   decide libm_pow self slo context u k
   = decide libm_pow (with_eps self 1) slo context u k).
Proof.
  intros Hu0 Hu1. split; intros Heps; unfold decide, with_eps; cbn [eps canary mu n].
  - assert (Hlt : lt u (eps self) = false).
    { destruct Heps as [Hle | Hnan].
      - destruct (lt u (eps self)) eqn:E; [|reflexivity].
        pose proof (lt_le_false u (eps self) 0 E (draw_not_under_zero u Hu0)).
        congruence.
      - apply (gt_nan_l (eps self) u Hnan). }
    now rewrite Hlt, (draw_not_under_zero u Hu0).
  - now rewrite (lt_le_trans u 1 (eps self) Hu1 Heps), Hu1.
Qed.

(** A scheduler built with [eps = -0.5] and one built with [eps = 2]. *)
Lemma eps_beyond_ends_witness :
  le 0 0.5 = true /\
  lt 0.5 1 = true /\
  le (eps (init (-0.5) 0.05)) 0 = true /\
  le 1 (eps (init 2 0.05)) = true /\
  decide libm_unreached (init (-0.5) 0.05) demo_slo ∅ 0.5 0
  = decide libm_unreached (with_eps (init (-0.5) 0.05) 0) demo_slo ∅ 0.5 0 /\
  decide libm_unreached (init 2 0.05) demo_slo ∅ 0.5 0
  = decide libm_unreached (with_eps (init 2 0.05) 1) demo_slo ∅ 0.5 0.
Proof.
  do 4 (split; [reflexivity|]). split.
  - apply (eps_beyond_ends libm_unreached (init (-0.5) 0.05) demo_slo ∅ 0.5 0
             eq_refl eq_refl). left. reflexivity.
  - apply (eps_beyond_ends libm_unreached (init 2 0.05) demo_slo ∅ 0.5 0
             eq_refl eq_refl). reflexivity.
Defined.

(** *** A fresh scheduler that exploits *)

Lemma init_lookup (eps0 canary0 : float) (t : string) :
  t ∈ cands ->
  mu (init eps0 canary0) !! t = Some 0 /\ n (init eps0 canary0) !! t = Some 1%Z.
Proof.
  intros Ht. apply cands_cases in Ht as [-> | [-> | ->]]; split; reflexivity.
Qed.

(** The exploit values of a fresh scheduler are the scores with [0.0 / 1]
    added. *)
Lemma vals_init (eps0 canary0 : float) (slo : SLO) (cs : list (string * Estimate)) :
  Forall (fun c => c.1 ∈ cands) cs ->
  vals (init eps0 canary0) slo cs
  = map (fun x => (x.1, x.2 + 0)) <$> ConstrainedBestScore.scored slo cs.
Proof.
  unfold vals, ConstrainedBestScore.scored.
  induction 1 as [|[t e] cs Ht _ IH]; cbn [mapM]; [reflexivity|].
  cbn [fst] in Ht. destruct (init_lookup eps0 canary0 t Ht) as [Hm Hn].
  destruct (score e slo) as [s | err]; cbn [mbind result_bind fmap result_fmap];
    [|reflexivity].
  rewrite (getitem_Some _ _ _ Hm), (getitem_Some _ _ _ Hn). cbn [mbind result_bind].
  change (truediv_int 0 1) with (Ok 0 : result float). cbn [mbind result_bind].
  rewrite IH.
  destruct (mapM (fun '(t0, est) => s0 ← score est slo; Ok (t0, est, s0)) cs)
    as [tl | err]; reflexivity.
Qed.

Lemma max_by_add_zero (triples : list (string * Estimate * float)) :
  max_by snd (map (fun x => (x.1, x.2 + 0)) triples)
  = (fun x => (x.1, x.2 + 0)) <$> max_by snd triples.
Proof.
  destruct triples as [|first rest]; [reflexivity|].
  cbn [map max_by fmap result_fmap]. f_equal.
  apply (max_loop_map (fun x : string * Estimate * float => (x.1, x.2 + 0)) snd snd).
  intros a b. apply gt_add_zero.
Qed.

(** X19.  A scheduler that has observed nothing and exploits decides as
    [ConstrainedBestScore] does: it returns the same target with the same
    estimate, and raises what it raises. *)
Theorem fresh_exploit_is_best_score (libm_pow : float -> float -> float)
  (eps0 canary0 : float) (slo : SLO) (context : gmap string float)
  (u : float) (k : nat) :
  lt u eps0 = false ->
  decide libm_pow (init eps0 canary0) slo context u k
  = match ConstrainedBestScore.decide libm_pow slo context with
    | Ok (t, info) =>
        Ok (t, {| target := t; expected := info.(best_expected);
                  mode := "exploit"; canary_fraction := canary0 |})
    | Raise e => Raise e
    end.
Proof.
  intros Hu.
  destruct (load_cases libm_pow context) as [[all Hall] | [(e & Hl & _) | Hl]].
  - rewrite (greedy_decide_eq libm_pow context _ slo u k all Hall),
      (best_score_decide_eq libm_pow context slo all Hall).
    cbn [eps canary init]. rewrite Hu, vals_init.
    + destruct (ConstrainedBestScore.scored slo (safe_or_all slo all)) as [triples | err];
        cbn [mbind result_bind fmap result_fmap]; [|reflexivity].
      rewrite max_by_add_zero.
      now destruct (max_by snd triples) as [[[t e] s] | err].
    + apply Forall_forall. intros c Hc.
      apply (safe_or_all_cands libm_pow context slo all c Hall Hc).
  - destruct (decide_load_raises libm_pow context e slo (init eps0 canary0) u k Hl)
      as [-> ->]. reflexivity.
  - destruct (decide_load_complex libm_pow context slo (init eps0 canary0) u k Hl)
      as (msg & -> & ->). reflexivity.
Qed.

(** The demo's two schedulers agree on photonic. *)
Lemma fresh_exploit_is_best_score_witness :
  lt 0.5 0.2 = false /\
  decide libm_unreached (init 0.2 0.05) demo_slo ∅ 0.5 0
  = match ConstrainedBestScore.decide libm_unreached demo_slo ∅ with
    | Ok (t, info) =>
        Ok (t, {| target := t; expected := info.(best_expected);
                  mode := "exploit"; canary_fraction := 0.05 |})
    | Raise e => Raise e
    end.
Proof.
  split; [reflexivity|].
  exact (fresh_exploit_is_best_score libm_unreached 0.2 0.05 demo_slo ∅ 0.5 0 eq_refl).
Defined.

(** *** Many observations *)

Lemma observe_other (self : t) (target other : string) (actual : gmap string float) :
  target <> other ->
  mu (observe self target actual).2 !! other = mu self !! other /\
  n (observe self target actual).2 !! other = n self !! other.
Proof.
  intros Hne. unfold observe. rewrite reward_defined. unfold getitem.
  destruct (mu self !! target) as [m|]; [|now split]. cbn [mu n].
  destruct (n self !! target) as [cnt|]; cbn [snd mu n];
    rewrite ?lookup_insert_ne by assumption; now split.
Qed.

Lemma observe_same (self : t) (target : string) (actual : gmap string float)
  (m : float) (cnt : Z) :
  mu self !! target = Some m ->
  n self !! target = Some cnt ->
  mu (observe self target actual).2 !! target = Some (m + reward_formula actual) /\
  n (observe self target actual).2 !! target = Some (cnt + 1)%Z.
Proof.
  intros Hm Hn. rewrite (observe_tracked self target actual m cnt Hm Hn).
  cbn [snd mu n]. now rewrite !lookup_insert_eq.
Qed.

(** X20.  After any run of [observe] calls, what the scheduler holds for a
    target depends on the calls for that target only: [n] has grown by their
    number, and [mu] is the float sum that adds their rewards one by one, in
    the order of the calls.  Calls for other targets, tracked or not, change
    nothing of it. *)
Theorem observe_all_totals (self : t) (calls : list (string * gmap string float))
  (target : string) (m : float) (cnt : Z) :
  mu self !! target = Some m ->
  n self !! target = Some cnt ->
  mu (observe_all self calls) !! target
  = Some (fold_left (fun acc actual => acc + reward_formula actual)
                    (outcomes_of target calls) m) /\
  n (observe_all self calls) !! target
  = Some (cnt + Z.of_nat (length (outcomes_of target calls)))%Z.
Proof.
  revert self m cnt. unfold observe_all, outcomes_of.
  induction calls as [|[t' actual] calls IH]; intros self m cnt Hm Hn;
    cbn [fold_left List.filter fst snd].
  - cbn. now rewrite Z.add_0_r.
  - destruct (String.eqb_spec t' target) as [-> | Hne].
    + destruct (observe_same self target actual m cnt Hm Hn) as [Hm' Hn'].
      destruct (IH _ _ _ Hm' Hn') as [IHm IHn].
      cbn [fmap list_fmap fold_left length snd]. split; [exact IHm|].
      rewrite IHn. f_equal. lia.
    + destruct (observe_other self t' target actual Hne) as [Hm' Hn'].
      rewrite <- Hm' in Hm. rewrite <- Hn' in Hn. apply (IH _ _ _ Hm Hn).
Qed.

(** Three reports to a fresh scheduler: two for gpu, one for a target it
    does not track. *)
Lemma observe_all_totals_witness :
  mu (init 0.2 0.05) !! "gpu" = Some 0 /\
  n (init 0.2 0.05) !! "gpu" = Some 1%Z /\
  mu (observe_all (init 0.2 0.05) three_reports) !! "gpu"
  = Some (0 + reward_formula demo_outcome + reward_formula ∅) /\
  n (observe_all (init 0.2 0.05) three_reports) !! "gpu" = Some 3%Z.
Proof.
  split; [reflexivity | split; [reflexivity|]].
  exact (observe_all_totals (init 0.2 0.05) three_reports "gpu" 0 1 eq_refl eq_refl).
Defined.

(** *** A NaN among the outcomes *)

Lemma reward_nan_cost (actual : gmap string float) :
  is_nan (get actual "cost" 1e-4) = true -> is_nan (reward_formula actual) = true.
Proof.
  intros Hnan. unfold reward_formula. apply is_nan_sub_l, is_nan_div_r.
  unfold max2. now rewrite (gt_nan_r _ _ Hnan).
Qed.

(** A [mu] entry that is a NaN stays one through any run of calls. *)
Lemma observe_all_nan (self : t) (calls : list (string * gmap string float))
  (target : string) (m : float) (cnt : Z) :
  mu self !! target = Some m ->
  n self !! target = Some cnt ->
  is_nan m = true ->
  exists m', mu (observe_all self calls) !! target = Some m' /\ is_nan m' = true.
Proof.
  revert self m cnt. unfold observe_all.
  induction calls as [|[t' actual] calls IH]; intros self m cnt Hm Hn Hnan;
    cbn [fold_left fst snd]; [eauto|].
  destruct (String.eqb_spec t' target) as [-> | Hne].
  - destruct (observe_same self target actual m cnt Hm Hn) as [Hm' Hn'].
    apply (IH _ _ _ Hm' Hn'). now apply is_nan_add_l.
  - destruct (observe_other self t' target actual Hne) as [Hm' Hn'].
    rewrite <- Hm' in Hm. rewrite <- Hn' in Hn. apply (IH _ _ _ Hm Hn Hnan).
Qed.

(** X21.  One outcome whose cost is a NaN spoils a target for good: after
    it [mu[target]] is a NaN, and it is still a NaN after any further
    observations. *)
Theorem observe_nan_cost (self : t) (target : string) (actual : gmap string float)
  (calls : list (string * gmap string float)) :
  reachable self ->
  target ∈ cands ->
  is_nan (get actual "cost" 1e-4) = true ->
  exists m,
    mu (observe_all (observe self target actual).2 calls) !! target = Some m /\
    is_nan m = true.
Proof.
  intros Hreach Ht Hnan.
  destruct (reachable_tracked self Hreach) as [Hin _].
  destruct (Hin target Ht) as (m & cnt & Hm & Hn & _).
  destruct (observe_same self target actual m cnt Hm Hn) as [Hm' Hn'].
  apply (observe_all_nan _ calls target _ _ Hm' Hn').
  apply is_nan_add_r, reward_nan_cost, Hnan.
Qed.

(** A NaN cost reported for gpu, and an ordinary outcome afterwards. *)
Lemma observe_nan_cost_witness :
  reachable (init 0.2 0.05) /\
  "gpu" ∈ cands /\
  is_nan (get nan_outcome "cost" 1e-4) = true /\
  exists m,
    mu (observe_all (observe (init 0.2 0.05) "gpu" nan_outcome).2
                    [("gpu", demo_outcome)]) !! "gpu" = Some m /\
    is_nan m = true.
Proof.
  assert (H1 : reachable (init 0.2 0.05)) by constructor.
  split; [exact H1 | split; [exact cands_gpu | split; [reflexivity|]]].
  exact (observe_nan_cost (init 0.2 0.05) "gpu" nan_outcome [("gpu", demo_outcome)]
           H1 cands_gpu eq_refl).
Defined.

End AdaptiveFacts.
